(** * libsctui: a shallow embedding of [sctui.h] and its properties

    [sctui.h] is a single-header terminal library: it switches the terminal
    to a raw alternate screen, gathers output in a draw buffer that is
    written out by [sctui_commit], suppresses redundant cursor moves,
    formats fixed-width lines and reads single key presses.

    The embedding follows the C text function by function.

    - A [char] is a [Byte.byte]; a [const char *] argument is the list of
      bytes found at the pointer, the string ending at the first NUL (or at
      the end of the list).
    - Memory reached through a [char *] is a map from offsets (relative to
      the pointer) to bytes.  Stores are applied wherever they land; whether
      an offset lies inside the allocation is a separate question, asked
      explicitly where a property is about it.
    - [int] and [size_t] values are integers of [Z]; conversions and
      [size_t] additions have their wrap-around written out.
    - Functions with effects run in a small monad over the state of the
      process ([world]): they return, call [exit], or fail an [assert]. *)

From Stdlib Require Import Strings.Byte Strings.String.
From Stdlib Require Import ZArith List Lia Bool.
Import ListNotations.

Local Open Scope byte_scope.
Local Open Scope Z_scope.

(** ** Machine integers *)

Definition INT_MAX : Z := 2147483647.
Definition INT_MIN : Z := -2147483648.
Definition SIZE_MAX : Z := 18446744073709551615.

(** Conversion to [int] (two's complement, 32 bits). *)
Definition to_int (z : Z) : Z := (z + 2147483648) mod 4294967296 - 2147483648.

(** Conversion to [unsigned int], as [%u] reads its argument. *)
Definition to_uint (z : Z) : Z := z mod 4294967296.

(** Conversion to [size_t] (64 bits), and [size_t] addition. *)
Definition to_size_t (z : Z) : Z := z mod 18446744073709551616.
Definition size_add (a b : Z) : Z := to_size_t (a + b).

(** ** Bytes, strings and memory *)

Definition NUL : byte := x00.
Definition NL : byte := x0a.
Definition SP : byte := " ".

(** The bytes of the C string found in [t]: everything before the first
    NUL. *)
Fixpoint cstr_bytes (t : list byte) : list byte :=
  match t with
  | [] => []
  | b :: t' => if Byte.eqb b NUL then [] else b :: cstr_bytes t'
  end.

Definition strlen (t : list byte) : Z := Z.of_nat (length (cstr_bytes t)).

(** Memory seen through a [char *]: offset from the pointer to byte. *)
Definition mem : Type := Z -> byte.

Definition upd (m : mem) (i : Z) (b : byte) : mem :=
  fun j => if j =? i then b else m j.

(** The [n] bytes at offsets [0 .. n-1]. *)
Definition read_bytes (m : mem) (n : Z) : list byte :=
  map (fun k => m (Z.of_nat k)) (seq 0 (Z.to_nat n)).

(** Consecutive stores of the bytes of [l], the first one at [dst]. *)
Fixpoint write_bytes (m : mem) (dst : Z) (l : list byte) : mem :=
  match l with
  | [] => m
  | b :: l' => write_bytes (upd m dst b) (dst + 1) l'
  end.

(** [stpcpy(dst, src)]: the bytes of the string and then its terminator. *)
Definition stpcpy (m : mem) (dst : Z) (src : list byte) : mem :=
  write_bytes m dst (cstr_bytes src ++ [NUL]).

(** [strncpy(dst, src, n)] stores exactly [n] bytes: those of the string
    and, once the string is exhausted, NUL padding.  The map is the memory
    after the call when the call returns, that is, when the [n] bytes lie
    in the destination; for a count no object can hold (see
    [strncpy_store] and [PTRDIFF_MAX]) it only tells which stores the call
    is asked to make. *)
Definition strncpy (m : mem) (dst : Z) (src : list byte) (n : Z) : mem :=
  fun j =>
    if (dst <=? j) && (j <? dst + n)
    then nth (Z.to_nat (j - dst)) (cstr_bytes src) NUL
    else m j.

(** ** [sctui_prepare_text]

    A loop [for (i = a; i < b; i++)] whose body leaves [i] and [b] alone
    runs [b - a] times when that is positive and not at all otherwise;
    the two loops of the function are written as recursions on that
    count.  The [int] subtraction and addition are given their two's
    complement result (C leaves their overflow undefined).

    The function is the memory after the call for the arguments with
    which its call of [strncpy] returns, those with [0 <= w - offset].
    With a negative [len] the count of that call is [(size_t)len], the
    call runs off its destination and nothing after it is reached; what
    can be said then is which stores the call is asked to make. *)

(** [for (i = 0; i < offset; i++) buf[i] = ' ';] run for [n] iterations
    from [i]; the result carries the final value of [i]. *)
Fixpoint fill_spaces (n : nat) (i : Z) (buf : mem) : mem * Z :=
  match n with
  | O => (buf, i)
  | S n' => fill_spaces n' (i + 1) (upd buf i SP)
  end.

(** The body of the second loop, run for [n] iterations from [i]:
    [[
    if (i < offset + len && buf[i] != '\n') continue;
    buf[i] = ' ';
    ]]
    [lim] is [offset + len]. *)
Fixpoint blank_rest (n : nat) (i lim : Z) (buf : mem) : mem * Z :=
  match n with
  | O => (buf, i)
  | S n' =>
      if (i <? lim) && negb (Byte.eqb (buf i) NL)
      then blank_rest n' (i + 1) lim buf
      else blank_rest n' (i + 1) lim (upd buf i SP)
  end.

Definition sctui_prepare_text (buf : mem) (offset w : Z) (text : list byte)
  : mem :=
  let tlen := to_int (strlen text) in
  let len := to_int (w - offset) in
  let len := if len >? tlen then tlen else len in
  let buf := strncpy buf offset text (to_size_t len) in
  (* i runs from 0 while i < offset *)
  let '(buf, _) := fill_spaces (Z.to_nat offset) 0 buf in
  (* i runs from offset while i < w *)
  let '(buf, i) := blank_rest (Z.to_nat (w - offset)) offset
                     (to_int (offset + len)) buf in
  upd buf i NUL.

(** ** Constants of the platform headers

    [BUFSIZ] comes from [<stdio.h>], the flag masks and the indices into
    [c_cc] from [<termios.h>].  The library's source does not fix them, so
    the embedding takes them as a parameter. *)

Record platform : Type := {
  BUFSIZ : Z;
  CS8 : Z; IXON : Z; ICRNL : Z; ECHO : Z; ICANON : Z; ISIG : Z; OPOST : Z;
  VMIN : Z; VTIME : Z
}.

(** The values of glibc on Linux. *)
Definition linux_glibc : platform := {|
  BUFSIZ := 8192;
  CS8 := 48; IXON := 1024; ICRNL := 256; ECHO := 8; ICANON := 2; ISIG := 1;
  OPOST := 1; VMIN := 6; VTIME := 5
|}.

(** ** Data *)

Record termios : Type := {
  c_iflag : Z; c_oflag : Z; c_cflag : Z; c_lflag : Z;
  c_cc : Z -> Z
}.

Definition set_c_iflag (t : termios) (v : Z) : termios :=
  {| c_iflag := v; c_oflag := c_oflag t; c_cflag := c_cflag t;
     c_lflag := c_lflag t; c_cc := c_cc t |}.
Definition set_c_oflag (t : termios) (v : Z) : termios :=
  {| c_iflag := c_iflag t; c_oflag := v; c_cflag := c_cflag t;
     c_lflag := c_lflag t; c_cc := c_cc t |}.
Definition set_c_cflag (t : termios) (v : Z) : termios :=
  {| c_iflag := c_iflag t; c_oflag := c_oflag t; c_cflag := v;
     c_lflag := c_lflag t; c_cc := c_cc t |}.
Definition set_c_lflag (t : termios) (v : Z) : termios :=
  {| c_iflag := c_iflag t; c_oflag := c_oflag t; c_cflag := c_cflag t;
     c_lflag := v; c_cc := c_cc t |}.
Definition set_c_cc (t : termios) (i v : Z) : termios :=
  {| c_iflag := c_iflag t; c_oflag := c_oflag t; c_cflag := c_cflag t;
     c_lflag := c_lflag t; c_cc := fun j => if j =? i then v else c_cc t j |}.

(** [struct sctui].  [buf] is the memory its pointer reaches; the
    allocation made by [sctui_init] covers offsets [0 .. buf_size - 1]. *)
Record sctui : Type := {
  cur : termios; orig : termios;
  cursor_x : Z; cursor_y : Z; w : Z; h : Z;
  buf : mem;
  buf_size : Z; buf_used : Z
}.

Definition set_cur (s : sctui) (v : termios) : sctui :=
  {| cur := v; orig := orig s; cursor_x := cursor_x s; cursor_y := cursor_y s;
     w := w s; h := h s; buf := buf s; buf_size := buf_size s;
     buf_used := buf_used s |}.
Definition set_orig (s : sctui) (v : termios) : sctui :=
  {| cur := cur s; orig := v; cursor_x := cursor_x s; cursor_y := cursor_y s;
     w := w s; h := h s; buf := buf s; buf_size := buf_size s;
     buf_used := buf_used s |}.
Definition set_cursor_x (s : sctui) (v : Z) : sctui :=
  {| cur := cur s; orig := orig s; cursor_x := v; cursor_y := cursor_y s;
     w := w s; h := h s; buf := buf s; buf_size := buf_size s;
     buf_used := buf_used s |}.
Definition set_cursor_y (s : sctui) (v : Z) : sctui :=
  {| cur := cur s; orig := orig s; cursor_x := cursor_x s; cursor_y := v;
     w := w s; h := h s; buf := buf s; buf_size := buf_size s;
     buf_used := buf_used s |}.
Definition set_w (s : sctui) (v : Z) : sctui :=
  {| cur := cur s; orig := orig s; cursor_x := cursor_x s;
     cursor_y := cursor_y s; w := v; h := h s; buf := buf s;
     buf_size := buf_size s; buf_used := buf_used s |}.
Definition set_h (s : sctui) (v : Z) : sctui :=
  {| cur := cur s; orig := orig s; cursor_x := cursor_x s;
     cursor_y := cursor_y s; w := w s; h := v; buf := buf s;
     buf_size := buf_size s; buf_used := buf_used s |}.
Definition set_buf (s : sctui) (v : mem) : sctui :=
  {| cur := cur s; orig := orig s; cursor_x := cursor_x s;
     cursor_y := cursor_y s; w := w s; h := h s; buf := v;
     buf_size := buf_size s; buf_used := buf_used s |}.
Definition set_buf_size (s : sctui) (v : Z) : sctui :=
  {| cur := cur s; orig := orig s; cursor_x := cursor_x s;
     cursor_y := cursor_y s; w := w s; h := h s; buf := buf s;
     buf_size := v; buf_used := buf_used s |}.
Definition set_buf_used (s : sctui) (v : Z) : sctui :=
  {| cur := cur s; orig := orig s; cursor_x := cursor_x s;
     cursor_y := cursor_y s; w := w s; h := h s; buf := buf s;
     buf_size := buf_size s; buf_used := v |}.

(** A [struct sctui *] is an address; [NULL] is 0. *)
Definition ptr : Type := Z.
Definition NULL : ptr := 0.

(** The state of the process and of its terminal.

    - [heap]: the [struct sctui] objects, by address;
    - [global_sctui]: the static variable of that name;
    - [tty]: the attributes of the terminal behind [STDIN_FILENO];
    - [out]: the [write] calls made on [STDOUT_FILENO], oldest first, each
      with the bytes it was given (a [write] is taken to accept all of
      them);
    - [err]: what was printed on [stderr];
    - [input]: what the coming [read(STDIN_FILENO, _, 1)] calls find, one
      entry per call: [Some b] when byte [b] arrives before the timeout,
      [None] when the timeout elapses (also once the list is used up);
    - [ioctl_ret], [ioctl_ws]: the result of [ioctl(TIOCGWINSZ)] and the
      [(ws_col, ws_row)] found in the [winsize] afterwards;
    - [next_alloc]: what [calloc] finds, [None] when it returns [NULL],
      otherwise the memory at the returned pointer before it is zeroed. *)
Record world : Type := {
  heap : ptr -> sctui;
  global_sctui : ptr;
  tty : termios;
  out : list (list byte);
  err : list byte;
  input : list (option byte);
  ioctl_ret : Z;
  ioctl_ws : Z * Z;
  next_alloc : option mem
}.

Definition set_heap (st : world) (v : ptr -> sctui) : world :=
  {| heap := v; global_sctui := global_sctui st; tty := tty st;
     out := out st; err := err st; input := input st;
     ioctl_ret := ioctl_ret st; ioctl_ws := ioctl_ws st;
     next_alloc := next_alloc st |}.
Definition set_global_sctui (st : world) (v : ptr) : world :=
  {| heap := heap st; global_sctui := v; tty := tty st;
     out := out st; err := err st; input := input st;
     ioctl_ret := ioctl_ret st; ioctl_ws := ioctl_ws st;
     next_alloc := next_alloc st |}.
Definition set_tty (st : world) (v : termios) : world :=
  {| heap := heap st; global_sctui := global_sctui st; tty := v;
     out := out st; err := err st; input := input st;
     ioctl_ret := ioctl_ret st; ioctl_ws := ioctl_ws st;
     next_alloc := next_alloc st |}.
Definition set_out (st : world) (v : list (list byte)) : world :=
  {| heap := heap st; global_sctui := global_sctui st; tty := tty st;
     out := v; err := err st; input := input st;
     ioctl_ret := ioctl_ret st; ioctl_ws := ioctl_ws st;
     next_alloc := next_alloc st |}.
Definition set_err (st : world) (v : list byte) : world :=
  {| heap := heap st; global_sctui := global_sctui st; tty := tty st;
     out := out st; err := v; input := input st;
     ioctl_ret := ioctl_ret st; ioctl_ws := ioctl_ws st;
     next_alloc := next_alloc st |}.
Definition set_input (st : world) (v : list (option byte)) : world :=
  {| heap := heap st; global_sctui := global_sctui st; tty := tty st;
     out := out st; err := err st; input := v;
     ioctl_ret := ioctl_ret st; ioctl_ws := ioctl_ws st;
     next_alloc := next_alloc st |}.

(** ** The monad of the library's functions *)

Inductive outcome (A : Type) : Type :=
| Ret (a : A) (st : world)          (* the call returns *)
| Exit (status : Z) (st : world)    (* the process called [exit] *)
| Abort (st : world).               (* an [assert] failed *)

Arguments Ret {A} a st.
Arguments Exit {A} status st.
Arguments Abort {A} st.

Definition M (A : Type) : Type := world -> outcome A.

Definition ret {A : Type} (a : A) : M A := fun st => Ret a st.

Definition bind {A B : Type} (c : M A) (k : A -> M B) : M B :=
  fun st =>
    match c st with
    | Ret a st' => k a st'
    | Exit n st' => Exit n st'
    | Abort st' => Abort st'
    end.

Declare Scope sctui_scope.
Delimit Scope sctui_scope with sctui.
Notation "x <- c ;; k" := (bind c (fun x => k))
  (at level 61, c at next level, right associativity) : sctui_scope.
Notation "c ;; k" := (bind c (fun _ => k))
  (at level 61, right associativity) : sctui_scope.
Local Open Scope sctui_scope.

(** *** Primitive actions *)

(** [assert(b)] *)
Definition assert (b : bool) : M unit :=
  fun st => if b then Ret tt st else Abort st.

(** [exit(status)] *)
Definition exit {A : Type} (status : Z) : M A := fun st => Exit status st.

(** Reading [*p], and an assignment to a field of [*p]. *)
Definition deref (p : ptr) : M sctui := fun st => Ret (heap st p) st.

Definition assign (p : ptr) (f : sctui -> sctui) : M unit :=
  fun st =>
    Ret tt (set_heap st (fun q => if q =? p then f (heap st p) else heap st q)).

Definition get_global_sctui : M ptr := fun st => Ret (global_sctui st) st.
Definition put_global_sctui (p : ptr) : M unit :=
  fun st => Ret tt (set_global_sctui st p).

(** [write(STDOUT_FILENO, data, n)] with the [n] bytes [data]. *)
Definition write_stdout (data : list byte) : M unit :=
  fun st => Ret tt (set_out st (out st ++ [data])).

(** [vfprintf(stderr, msg, ap)] for a format without conversions. *)
Definition vfprintf_stderr (msg : list byte) : M unit :=
  fun st => Ret tt (set_err st (err st ++ msg)).

Definition tcgetattr : M termios := fun st => Ret (tty st) st.
Definition tcsetattr (t : termios) : M unit := fun st => Ret tt (set_tty st t).

(** [ioctl(STDOUT_FILENO, TIOCGWINSZ, &ws)]: the returned value and the
    fields of [ws] after the call. *)
Definition ioctl_TIOCGWINSZ : M (Z * (Z * Z)) :=
  fun st => Ret (ioctl_ret st, ioctl_ws st) st.

(** [calloc(nmemb, size)]: [None] for [NULL], otherwise memory whose first
    [nmemb * size] bytes are zero. *)
Definition calloc (nmemb size : Z) : M (option mem) :=
  fun st =>
    Ret (match next_alloc st with
         | None => None
         | Some m =>
             Some (fun j => if (0 <=? j) && (j <? nmemb * size) then NUL
                            else m j)
         end) st.

(** [read(STDIN_FILENO, keybuf, 1)]: stores the byte that arrived, if any,
    at the first byte of [keybuf], the memory of the caller's
    [int keybuf[SCTUI_KEYBUF_SIZ]]; the value [read] returns is not used
    by the library. *)
Definition read_stdin_1 (keybuf : mem) : M mem :=
  fun st =>
    match input st with
    | Some b :: rest => Ret (upd keybuf 0 b) (set_input st rest)
    | None :: rest => Ret keybuf (set_input st rest)
    | [] => Ret keybuf st
    end.

(** *** Escape sequences *)

Definition ESC : byte := x1b.
Definition ESC_CLEAR_SCREEN : list byte := ESC :: list_byte_of_string "[2J".
Definition ESC_CLOSE_ALT_SCREEN : list byte :=
  ESC :: list_byte_of_string "[?1049l".
Definition ESC_OPEN_ALT_SCREEN : list byte :=
  ESC :: list_byte_of_string "[?1049h".
Definition ESC_HIDE_CURSOR : list byte := ESC :: list_byte_of_string "[?25l".
Definition ESC_SHOW_CURSOR : list byte := ESC :: list_byte_of_string "[?25h".

(** *** [sprintf(b, "\x1b[%u;%uH", y, x)] *)

Definition digit (d : Z) : byte :=
  nth (Z.to_nat d) ["0"; "1"; "2"; "3"; "4"; "5"; "6"; "7"; "8"; "9"]%byte "0".

(** The decimal digits of [n], most significant first, in front of [acc];
    ten rounds are enough for a 32-bit value. *)
Fixpoint dec_digits (fuel : nat) (n : Z) (acc : list byte) : list byte :=
  match fuel with
  | O => acc
  | S fuel' =>
      let acc' := digit (n mod 10) :: acc in
      if n / 10 =? 0 then acc' else dec_digits fuel' (n / 10) acc'
  end.

(** [%u] applied to an [int] argument. *)
Definition fmt_u (v : Z) : list byte := dec_digits 10 (to_uint v) [].

Definition sprintf_cursor (y x : Z) : list byte :=
  ESC :: "[" :: fmt_u y ++ ";" :: fmt_u x ++ ["H"].

(** ** The functions of [sctui.h] *)

Definition msg_calloc : list byte :=
  list_byte_of_string "failed to calloc" ++ [NL].
Definition msg_initialized : list byte :=
  list_byte_of_string "[sctui]: initialized" ++ [NL].
Definition msg_winsize : list byte :=
  list_byte_of_string "[sctui]: failed to get winsize" ++ [NL].

(** [_sctui_die]: prints the message and exits with status 1; it does not
    return, whatever the type of the caller's continuation. *)
Definition _sctui_die {A : Type} (msg : list byte) : M A :=
  vfprintf_stderr msg ;; exit 1.

Definition _sctui_ecalloc (nmemb size : Z) : M mem :=
  p <- calloc nmemb size ;;
  match p with
  | None => _sctui_die msg_calloc
  | Some m => ret m
  end.

Definition sctui_clear : M unit :=
  write_stdout (firstn 4 ESC_CLEAR_SCREEN).

Definition sctui_commit (sctui : ptr) : M unit :=
  s <- deref sctui ;;
  write_stdout (read_bytes (buf s) (buf_used s)) ;;
  assign sctui (fun s => set_buf_used s 0).

Definition sctui_fini : M unit :=
  g <- get_global_sctui ;;
  assert (negb (g =? NULL)) ;;
  write_stdout (firstn 8 ESC_CLOSE_ALT_SCREEN) ;;
  gs <- deref g ;;
  tcsetattr (orig gs).

Definition sctui_get_win (sctui : ptr) : M unit :=
  r <- ioctl_TIOCGWINSZ ;;
  let '(rc, (ws_col, ws_row)) := r in
  (if (rc =? -1) || (ws_col =? 0)
   then sctui_fini ;; _sctui_die msg_winsize
   else ret tt) ;;
  assign sctui (fun s => set_w s (if negb (ws_col =? 0) then ws_col else 80)) ;;
  assign sctui (fun s => set_h s (if negb (ws_row =? 0) then ws_row else 24)).

Definition sctui_grab_key (keybuf : mem) : M mem :=
  read_stdin_1 keybuf.

Section WithPlatform.

Variable P : platform.

Definition _sctui_buf_append (sctui : ptr) (text : list byte) : M unit :=
  let siz := strlen text in
  assert (siz <=? BUFSIZ P) ;;
  s <- deref sctui ;;
  (if size_add (buf_used s) siz >? buf_size s
   then sctui_commit sctui
   else ret tt) ;;
  assign sctui (fun s => set_buf s (stpcpy (buf s) (buf_used s) text)) ;;
  assign sctui (fun s => set_buf_used s (size_add (buf_used s) siz)).

Definition sctui_cursor (sctui : ptr) (x y : Z) : M unit :=
  s <- deref sctui ;;
  if (cursor_x s =? x) && (cursor_y s =? y)
  then ret tt
  else
    _sctui_buf_append sctui (sprintf_cursor y x) ;;
    assign sctui (fun s => set_cursor_x s x) ;;
    assign sctui (fun s => set_cursor_y s y).

Definition sctui_hide_cursor (sctui : ptr) : M unit :=
  _sctui_buf_append sctui ESC_HIDE_CURSOR.

Definition sctui_show_cursor (sctui : ptr) : M unit :=
  _sctui_buf_append sctui ESC_SHOW_CURSOR.

Definition sctui_init (sctui : ptr) : M unit :=
  g <- get_global_sctui ;;
  (if negb (g =? NULL) then _sctui_die msg_initialized else ret tt) ;;
  t <- tcgetattr ;;
  assign sctui (fun s => set_orig s t) ;;
  put_global_sctui sctui ;;
  assign sctui (fun s => set_cur s (orig s)) ;;
  assign sctui (fun s =>
    set_cur s (set_c_cflag (cur s) (Z.lor (c_cflag (cur s)) (CS8 P)))) ;;
  assign sctui (fun s =>
    set_cur s (set_c_iflag (cur s)
      (Z.land (c_iflag (cur s)) (Z.lnot (Z.lor (IXON P) (ICRNL P)))))) ;;
  assign sctui (fun s =>
    set_cur s (set_c_lflag (cur s)
      (Z.land (c_lflag (cur s))
         (Z.lnot (Z.lor (Z.lor (ECHO P) (ICANON P)) (ISIG P)))))) ;;
  assign sctui (fun s =>
    set_cur s (set_c_oflag (cur s)
      (Z.land (c_oflag (cur s)) (Z.lnot (OPOST P))))) ;;
  assign sctui (fun s => set_cur s (set_c_cc (cur s) (VMIN P) 0)) ;;
  assign sctui (fun s => set_cur s (set_c_cc (cur s) (VTIME P) 1)) ;;
  s <- deref sctui ;;
  tcsetattr (cur s) ;;
  write_stdout (firstn 8 ESC_OPEN_ALT_SCREEN) ;;
  sctui_get_win sctui ;;
  assign sctui (fun s => set_cursor_y s 1) ;;
  assign sctui (fun s => set_cursor_x s 1) ;;
  m <- _sctui_ecalloc (BUFSIZ P) 1 ;;
  assign sctui (fun s => set_buf s m) ;;
  assign sctui (fun s => set_buf_size s (BUFSIZ P)) ;;
  assign sctui (fun s => set_buf_used s 0) ;;
  write_stdout (firstn (Z.to_nat (strlen ESC_CLEAR_SCREEN)) ESC_CLEAR_SCREEN).

Definition sctui_text (sctui : ptr) (x y : Z) (text : list byte) : M unit :=
  s <- deref sctui ;;
  let ox := cursor_x s in
  let oy := cursor_y s in
  sctui_cursor sctui x y ;;
  _sctui_buf_append sctui text ;;
  sctui_cursor sctui ox oy.

(** A caller appending the texts of a list, one call each. *)
Fixpoint appends (sctui : ptr) (texts : list (list byte)) : M unit :=
  match texts with
  | [] => ret tt
  | t :: texts' => _sctui_buf_append sctui t ;; appends sctui texts'
  end.

End WithPlatform.

(** ** Notions used by the statements *)

(** The bytes held by the draw buffer of [*p]. *)
Definition held (st : world) (p : ptr) : list byte :=
  read_bytes (buf (heap st p)) (buf_used (heap st p)).

(** Everything sent towards the terminal so far. *)
Definition written (st : world) : list byte := concat (out st).

(** The invariant of the draw buffer on platform [P]: the capacity is the
    one [sctui_init] sets and the used length lies within it. *)
Definition buf_ok (P : platform) (s : sctui) : Prop :=
  buf_size s = BUFSIZ P /\ 0 <= buf_used s <= buf_size s.

(** What the C standard and the type of the macro give for [BUFSIZ]. *)
Definition platform_ok (P : platform) : Prop :=
  256 <= BUFSIZ P <= INT_MAX.

(** [st'] differs from [st] at most in the heap and in the output. *)
Definition same_env (st st' : world) : Prop :=
  global_sctui st' = global_sctui st /\ tty st' = tty st /\
  err st' = err st /\ input st' = input st /\
  ioctl_ret st' = ioctl_ret st /\ ioctl_ws st' = ioctl_ws st /\
  next_alloc st' = next_alloc st.

(** [st'] answers the window-size query and [calloc] as [st] does. *)
Definition same_oracle (st st' : world) : Prop :=
  ioctl_ret st' = ioctl_ret st /\ ioctl_ws st' = ioctl_ws st /\
  next_alloc st' = next_alloc st.

(** The bytes a list of texts contributes. *)
Definition payload (texts : list (list byte)) : list byte :=
  concat (map cstr_bytes texts).

(** The number a string of decimal digits denotes. *)
Definition dec_value (l : list byte) : Z :=
  fold_left (fun acc b => acc * 10 + (Z.of_N (Byte.to_N b) - 48)) l 0.

(** The caller's sequence of the cursor example. *)
Definition cursor_5_5_5_5_6_5 (P : platform) (p : ptr) : M unit :=
  sctui_cursor P p 5 5 ;; sctui_cursor P p 5 5 ;; sctui_cursor P p 6 5.

(** The line [sctui_prepare_text] is described to produce, character by
    character: spaces before [offset], then the first
    [min (strlen text) (w - offset)] characters of the text with newlines
    turned into spaces, then spaces. *)
Definition nl_to_sp (b : byte) : byte := if Byte.eqb b NL then SP else b.

Definition line_spec (offset w : Z) (text : list byte) (j : Z) : byte :=
  if j <? offset then SP
  else if j <? offset + Z.min (strlen text) (w - offset)
       then nl_to_sp (nth (Z.to_nat (j - offset)) (cstr_bytes text) NUL)
       else SP.

(** Two calls of [sctui_grab_key] on the same key buffer. *)
Definition grab_key_twice (keybuf : mem) : M mem :=
  keybuf1 <- sctui_grab_key keybuf ;; sctui_grab_key keybuf1.

(** A quiet terminal state to run examples from: no session yet, a
    terminal of 100 columns and 30 rows, memory available. *)
Definition termios0 : termios :=
  {| c_iflag := 1280; c_oflag := 5; c_cflag := 191; c_lflag := 35387;
     c_cc := fun _ => 0 |}.

Definition sctui0 : sctui :=
  {| cur := termios0; orig := termios0; cursor_x := 0; cursor_y := 0;
     w := 0; h := 0; buf := fun _ => NUL; buf_size := 0; buf_used := 0 |}.

Definition world0 : world :=
  {| heap := fun _ => sctui0; global_sctui := NULL; tty := termios0;
     out := []; err := []; input := [];
     ioctl_ret := 0; ioctl_ws := (100, 30);
     next_alloc := Some (fun _ => "x") |}.

(** The state in which [c], started in [st], ends. *)
Definition run {A : Type} (c : M A) (st : world) : world :=
  match c st with
  | Ret _ st' => st'
  | Exit _ st' => st'
  | Abort st' => st'
  end.

(** The session [sctui_init] sets up at address 1 on Linux, starting from
    [world0]. *)
Definition session1 : world := run (sctui_init linux_glibc 1) world0.

(** [session1] on a terminal that reports 0 columns and 30 rows, the
    query itself succeeding. *)
Definition session1_zero_cols : world :=
  {| heap := heap session1; global_sctui := global_sctui session1;
     tty := tty session1; out := out session1; err := err session1;
     input := input session1;
     ioctl_ret := 0; ioctl_ws := (0, 30);
     next_alloc := next_alloc session1 |}.

(** A text that fills the fresh draw buffer of [session1] exactly. *)
Definition text_8192 : list byte := repeat "a"%byte (Z.to_nat 8192).

(** ** Key constants of the header *)

Definition KBS : Z := 127.
Definition KCR : Z := 13.
Definition KESC : Z := 27.

(** [#define KCTRL(K) ((K) & 0x1f)] *)
Definition KCTRL (k : Z) : Z := Z.land k 31.

Definition SCTUI_KEYBUF_SIZ : Z := 3.

(** ** Further notions used by the statements *)

(** The outcome of [c] started in [st] satisfies [Q]. *)
Definition ends {A : Type} (c : M A) (st : world) (Q : outcome A -> Prop)
  : Prop := Q (c st).

(** The attributes [sctui_init] derives from the attributes [t] it finds:
    the result of its six assignments to [sctui->cur]. *)
Definition raw_termios (P : platform) (t : termios) : termios :=
  {| c_iflag := Z.land (c_iflag t) (Z.lnot (Z.lor (IXON P) (ICRNL P)));
     c_oflag := Z.land (c_oflag t) (Z.lnot (OPOST P));
     c_cflag := Z.lor (c_cflag t) (CS8 P);
     c_lflag := Z.land (c_lflag t)
                  (Z.lnot (Z.lor (Z.lor (ECHO P) (ICANON P)) (ISIG P)));
     c_cc := fun j => if j =? VTIME P then 1
                      else if j =? VMIN P then 0 else c_cc t j |}.

(** Everything on its way to the terminal: the bytes written and, behind
    them, the bytes held in the draw buffer of [*p]. *)
Definition pending (st : world) (p : ptr) : list byte :=
  written st ++ held st p.

(** The calls a program makes to draw, and a program as a list of them. *)
Inductive draw_call : Type :=
| CallCursor (x y : Z)
| CallHideCursor
| CallShowCursor
| CallText (x y : Z) (text : list byte)
| CallCommit.

Definition run_call (P : platform) (p : ptr) (c : draw_call) : M unit :=
  match c with
  | CallCursor x y => sctui_cursor P p x y
  | CallHideCursor => sctui_hide_cursor P p
  | CallShowCursor => sctui_show_cursor P p
  | CallText x y text => sctui_text P p x y text
  | CallCommit => sctui_commit p
  end.

Fixpoint run_calls (P : platform) (p : ptr) (cs : list draw_call) : M unit :=
  match cs with
  | [] => ret tt
  | c :: cs' => run_call P p c ;; run_calls P p cs'
  end.

(** The same calls without a buffer: the bytes each call sends to the
    terminal at once, given the cursor position [pos] known so far, and the
    position known afterwards. *)
Definition move_bytes (pos : Z * Z) (x y : Z) : list byte :=
  if (fst pos =? x) && (snd pos =? y) then [] else sprintf_cursor y x.

Definition direct_call (pos : Z * Z) (c : draw_call) : list byte * (Z * Z) :=
  match c with
  | CallCursor x y => (move_bytes pos x y, (x, y))
  | CallHideCursor => (ESC_HIDE_CURSOR, pos)
  | CallShowCursor => (ESC_SHOW_CURSOR, pos)
  | CallText x y text =>
      (move_bytes pos x y ++ cstr_bytes text
         ++ move_bytes (x, y) (fst pos) (snd pos), pos)
  | CallCommit => ([], pos)
  end.

Fixpoint direct_calls (pos : Z * Z) (cs : list draw_call)
  : list byte * (Z * Z) :=
  match cs with
  | [] => ([], pos)
  | c :: cs' =>
      let '(b, pos1) := direct_call pos c in
      let '(bs, pos2) := direct_calls pos1 cs' in
      (b ++ bs, pos2)
  end.

(** The longest text a call passes to the draw buffer. *)
Definition call_fits (P : platform) (c : draw_call) : Prop :=
  match c with
  | CallText _ _ text => strlen text <= BUFSIZ P
  | _ => True
  end.

(** The recorded cursor position of [*p]. *)
Definition cursor_pos (st : world) (p : ptr) : Z * Z :=
  (cursor_x (heap st p), cursor_y (heap st p)).

(** What every run of [sctui_init] that gets past its first test has done
    to the session at [p], and what it has done once the window size is
    known. *)
Definition init_touched (P : platform) (p : ptr) (st st' : world) : Prop :=
  global_sctui st' = p /\
  orig (heap st' p) = tty st /\
  cur (heap st' p) = raw_termios P (tty st) /\
  (forall q, q <> p -> heap st' q = heap st q) /\
  input st' = input st.

Definition init_window (p : ptr) (st st' : world) : Prop :=
  tty st' = cur (heap st' p) /\
  w (heap st' p) = fst (ioctl_ws st) /\
  h (heap st' p) = (if snd (ioctl_ws st) =? 0 then 24 else snd (ioctl_ws st)) /\
  cursor_x (heap st' p) = 1 /\ cursor_y (heap st' p) = 1.

(** [world0] with a failing window-size query, and [world0] without
    memory for the draw buffer. *)
Definition world0_no_window : world :=
  {| heap := heap world0; global_sctui := global_sctui world0;
     tty := tty world0; out := out world0; err := err world0;
     input := input world0;
     ioctl_ret := -1; ioctl_ws := ioctl_ws world0;
     next_alloc := next_alloc world0 |}.

Definition world0_no_memory : world :=
  {| heap := heap world0; global_sctui := global_sctui world0;
     tty := tty world0; out := out world0; err := err world0;
     input := input world0;
     ioctl_ret := ioctl_ret world0; ioctl_ws := ioctl_ws world0;
     next_alloc := None |}.

(** What drawing leaves alone: everything of the process but the output,
    every other [struct sctui], and in [*p] the saved and the raw
    attributes, the window size and the capacity of the buffer. *)
Definition draw_frame (p : ptr) (st st' : world) : Prop :=
  same_env st st' /\
  (forall q, q <> p -> heap st' q = heap st q) /\
  orig (heap st' p) = orig (heap st p) /\
  cur (heap st' p) = cur (heap st p) /\
  w (heap st' p) = w (heap st p) /\
  h (heap st' p) = h (heap st p) /\
  buf_size (heap st' p) = buf_size (heap st p).

(** The calls that never write by themselves. *)
Definition no_commit (c : draw_call) : Prop :=
  match c with
  | CallCommit => False
  | _ => True
  end.

(** The length of a list of bytes as a [size_t]. *)
Definition len (l : list byte) : Z := Z.of_nat (length l).

(** [n] calls of [sctui_grab_key] in a row on the same key buffer. *)
Fixpoint grab_keys (n : nat) (keybuf : mem) : M mem :=
  match n with
  | O => ret keybuf
  | S n' => keybuf1 <- sctui_grab_key keybuf ;; grab_keys n' keybuf1
  end.

(** The last byte to arrive among [inputs], [d] when none did. *)
Definition last_byte (inputs : list (option byte)) (d : byte) : byte :=
  fold_left (fun acc i => match i with Some b => b | None => acc end) inputs d.

(** Where an append stores: at the used length, or at 0 after the commit
    it makes when the text does not fit. *)
Definition append_at (s : sctui) (text : list byte) : Z :=
  if buf_used s + strlen text >? buf_size s then 0 else buf_used s.

(** ** The call of [strncpy] in [sctui_prepare_text] *)

(** No object has more than [PTRDIFF_MAX] bytes. *)
Definition PTRDIFF_MAX : Z := 9223372036854775807.

(** The value of [len] when [sctui_prepare_text] calls
    [strncpy(&buf[offset], text, len)]. *)
Definition prepare_text_len (offset w : Z) (text : list byte) : Z :=
  let tlen := to_int (strlen text) in
  let len := to_int (w - offset) in
  if len >? tlen then tlen else len.

(** The byte [strncpy(dst, src, n)] is asked to store at index [j], if
    any. *)
Definition strncpy_store (dst : Z) (src : list byte) (n : Z) (j : Z)
  : option byte :=
  if (dst <=? j) && (j <? dst + n)
  then Some (nth (Z.to_nat (j - dst)) (cstr_bytes src) NUL)
  else None.

(** The bytes outside the allocation of the draw buffer of [*p] are in
    [st'] what they are in [st]. *)
Definition outside_kept (P : platform) (p : ptr) (st st' : world) : Prop :=
  forall j, j < 0 \/ BUFSIZ P <= j ->
    buf (heap st' p) j = buf (heap st p) j.

(** * Properties *)

(** ** Integers *)

Lemma to_int_small (z : Z) : INT_MIN <= z <= INT_MAX -> to_int z = z.
Proof.
  unfold to_int, INT_MIN, INT_MAX. intros Hz.
  rewrite Z.mod_small; lia.
Qed.

Lemma to_size_t_small (z : Z) : 0 <= z <= SIZE_MAX -> to_size_t z = z.
Proof.
  unfold to_size_t, SIZE_MAX. intros Hz. apply Z.mod_small. lia.
Qed.

Lemma size_add_small (a b : Z) :
  0 <= a -> 0 <= b -> a + b <= SIZE_MAX -> size_add a b = a + b.
Proof. intros. unfold size_add. apply to_size_t_small. lia. Qed.

(** ** Strings *)

Lemma strlen_nonneg (t : list byte) : 0 <= strlen t.
Proof. unfold strlen. lia. Qed.

Lemma cstr_bytes_no_NUL (t : list byte) : Forall (fun b => b <> NUL) (cstr_bytes t).
Proof.
  induction t as [|b t IH]; cbn; [constructor|].
  destruct (Byte.eqb b NUL) eqn:E; constructor; auto.
  now apply Byte.eqb_false.
Qed.

Lemma cstr_bytes_id (t : list byte) :
  Forall (fun b => b <> NUL) t -> cstr_bytes t = t.
Proof.
  induction 1 as [|b t Hb _ IH]; cbn; [reflexivity|].
  destruct (Byte.eqb b NUL) eqn:E.
  - apply Byte.byte_dec_bl in E. contradiction.
  - now rewrite IH.
Qed.

Lemma cstr_bytes_idem (t : list byte) : cstr_bytes (cstr_bytes t) = cstr_bytes t.
Proof. apply cstr_bytes_id, cstr_bytes_no_NUL. Qed.

(** ** Memory *)

Lemma upd_same (m : mem) (i : Z) (b : byte) : upd m i b i = b.
Proof. unfold upd. now rewrite Z.eqb_refl. Qed.

Lemma upd_other (m : mem) (i j : Z) (b : byte) : j <> i -> upd m i b j = m j.
Proof. unfold upd. intros H. apply Z.eqb_neq in H. now rewrite H. Qed.

Lemma read_bytes_length (m : mem) (n : Z) :
  length (read_bytes m n) = Z.to_nat n.
Proof. unfold read_bytes. now rewrite length_map, length_seq. Qed.

Lemma read_bytes_ext (m m' : mem) (n : Z) :
  (forall j, 0 <= j < n -> m j = m' j) -> read_bytes m n = read_bytes m' n.
Proof.
  intros H. unfold read_bytes. apply map_ext_in.
  intros k Hk. apply in_seq in Hk. apply H. lia.
Qed.

Lemma read_bytes_succ (m : mem) (n : Z) :
  0 <= n -> read_bytes m (n + 1) = read_bytes m n ++ [m n].
Proof.
  intros Hn. unfold read_bytes.
  replace (Z.to_nat (n + 1)) with (S (Z.to_nat n)) by lia.
  rewrite seq_S, map_app. cbn. now rewrite Z2Nat.id.
Qed.

Lemma read_bytes_nth (m : mem) (n : Z) (k : nat) (d : byte) :
  (k < Z.to_nat n)%nat -> nth k (read_bytes m n) d = m (Z.of_nat k).
Proof.
  intros Hk. unfold read_bytes.
  rewrite nth_indep with (d' := m (Z.of_nat 0))
    by now rewrite length_map, length_seq.
  rewrite (map_nth (fun k => m (Z.of_nat k))).
  now rewrite seq_nth.
Qed.

Lemma write_bytes_below (l : list byte) (m : mem) (dst j : Z) :
  j < dst -> write_bytes m dst l j = m j.
Proof.
  revert m dst. induction l as [|b l IH]; intros m dst Hj; cbn; [reflexivity|].
  rewrite IH by lia. apply upd_other. lia.
Qed.

Lemma write_bytes_app (l r : list byte) (m : mem) (dst : Z) :
  write_bytes m dst (l ++ r)
  = write_bytes (write_bytes m dst l) (dst + Z.of_nat (length l)) r.
Proof.
  revert m dst. induction l as [|b l IH]; intros m dst; cbn [app write_bytes length].
  - now rewrite Z.add_0_r.
  - rewrite IH. f_equal. lia.
Qed.

(** Reading back what [write_bytes] stored behind the bytes already
    there. *)
Lemma read_bytes_write_bytes (l : list byte) (m : mem) (n : Z) :
  0 <= n ->
  read_bytes (write_bytes m n l) (n + Z.of_nat (length l))
  = read_bytes m n ++ l.
Proof.
  revert m n. induction l as [|b l IH]; intros m n Hn; cbn [write_bytes length].
  - now rewrite Z.add_0_r, app_nil_r.
  - replace (n + Z.of_nat (S (length l))) with ((n + 1) + Z.of_nat (length l)) by lia.
    rewrite IH by lia. rewrite read_bytes_succ by lia.
    rewrite upd_same, <- app_assoc. cbn. f_equal.
    apply read_bytes_ext. intros j Hj. apply upd_other. lia.
Qed.

(** The terminator [stpcpy] stores lies just behind the bytes of the
    string. *)
Lemma stpcpy_terminator (m : mem) (dst : Z) (src : list byte) :
  stpcpy m dst src (dst + strlen src) = NUL.
Proof.
  unfold stpcpy, strlen. rewrite write_bytes_app. cbn. apply upd_same.
Qed.

Lemma read_bytes_stpcpy (m : mem) (n : Z) (src : list byte) :
  0 <= n ->
  read_bytes (stpcpy m n src) (n + strlen src) = read_bytes m n ++ cstr_bytes src.
Proof.
  intros Hn. unfold stpcpy, strlen. rewrite write_bytes_app. cbn.
  rewrite <- (read_bytes_write_bytes (cstr_bytes src) m n Hn).
  apply read_bytes_ext. intros j Hj. apply upd_other. lia.
Qed.

(** ** The draw buffer *)

Lemma same_env_refl (st : world) : same_env st st.
Proof. unfold same_env. tauto. Qed.

Lemma same_env_trans (a b c : world) :
  same_env a b -> same_env b c -> same_env a c.
Proof.
  unfold same_env. intros (?&?&?&?&?&?&?) (?&?&?&?&?&?&?).
  repeat split; congruence.
Qed.

(** [sctui_commit] always returns; it makes one [write] of the bytes held
    and empties the buffer. *)
Lemma sctui_commit_run (p : ptr) (st : world) :
  exists st',
    sctui_commit p st = Ret tt st' /\
    out st' = out st ++ [held st p] /\
    heap st' p = set_buf_used (heap st p) 0 /\
    (forall q, q <> p -> heap st' q = heap st q) /\
    same_env st st'.
Proof.
  eexists. split; [reflexivity|]. cbn.
  rewrite Z.eqb_refl. repeat split.
  intros q Hq. apply Z.eqb_neq in Hq. now rewrite Hq.
Qed.

Section DrawBuffer.

Variable P : platform.

(** One append, as the code runs it: the [assert] passes, a commit
    happens exactly when the sum exceeds [buf_size], the string is
    stored at the used length of that moment. *)
Lemma buf_append_run (p : ptr) (text : list byte) (st : world) :
  strlen text <= BUFSIZ P ->
  let s := heap st p in
  let flush := size_add (buf_used s) (strlen text) >? buf_size s in
  let at_ := if flush then 0 else buf_used s in
  exists st',
    _sctui_buf_append P p text st = Ret tt st' /\
    out st' = (if flush then out st ++ [held st p] else out st) /\
    heap st' p =
      set_buf_used (set_buf s (stpcpy (buf s) at_ text))
                   (size_add at_ (strlen text)) /\
    (forall q, q <> p -> heap st' q = heap st q) /\
    same_env st st'.
Proof.
  intros Hlen s flush at_. subst s flush at_.
  apply Z.leb_le in Hlen.
  unfold _sctui_buf_append, bind, assert, deref. rewrite Hlen.
  destruct (size_add (buf_used (heap st p)) (strlen text) >? buf_size (heap st p)).
  - eexists. split; [reflexivity|]. cbn. rewrite !Z.eqb_refl. cbn.
    repeat split.
    intros q Hq. apply Z.eqb_neq in Hq. now rewrite Hq.
  - eexists. split; [reflexivity|]. cbn. rewrite !Z.eqb_refl. cbn.
    repeat split.
    intros q Hq. apply Z.eqb_neq in Hq. now rewrite Hq.
Qed.

Hypothesis HP : platform_ok P.

(** The same step in terms of the bytes held, for a buffer that
    satisfies its invariant. *)
Lemma buf_append_held (p : ptr) (text : list byte) (st : world) :
  buf_ok P (heap st p) ->
  strlen text <= BUFSIZ P ->
  exists st',
    _sctui_buf_append P p text st = Ret tt st' /\
    buf_ok P (heap st' p) /\
    (forall q, q <> p -> heap st' q = heap st q) /\
    same_env st st' /\
    cursor_x (heap st' p) = cursor_x (heap st p) /\
    cursor_y (heap st' p) = cursor_y (heap st p) /\
    if buf_used (heap st p) + strlen text >? BUFSIZ P
    then out st' = out st ++ [held st p] /\
         held st' p = cstr_bytes text /\
         buf_used (heap st' p) = strlen text
    else out st' = out st /\
         held st' p = held st p ++ cstr_bytes text /\
         buf_used (heap st' p) = buf_used (heap st p) + strlen text.
Proof.
  intros [Hsize Hused] Hlen.
  destruct (buf_append_run p text st Hlen) as (st' & Hrun & Hout & Hheap & Hfr & Henv).
  exists st'. split; [exact Hrun|].
  pose proof (strlen_nonneg text) as Hnn.
  unfold platform_ok, INT_MAX in HP.
  rewrite size_add_small in Hout, Hheap by (unfold SIZE_MAX; lia).
  rewrite Hsize in Hout, Hheap.
  unfold held. rewrite Hheap. cbn [buf buf_used buf_size cursor_x cursor_y set_buf set_buf_used].
  unfold buf_ok. cbn [buf buf_used buf_size cursor_x cursor_y set_buf set_buf_used].
  pose proof Henv as (?&?&?&?&?&?&?).
  destruct (buf_used (heap st p) + strlen text >? BUFSIZ P) eqn:E.
  - rewrite size_add_small by (unfold SIZE_MAX; lia).
    repeat split; try assumption; try lia.
    now rewrite read_bytes_stpcpy by lia.
  - rewrite size_add_small by (unfold SIZE_MAX; lia).
    assert (buf_used (heap st p) + strlen text <= BUFSIZ P) by lia.
    repeat split; try assumption; try lia.
    apply read_bytes_stpcpy. lia.
Qed.

End DrawBuffer.

Section Appends.

Variable P : platform.
Hypothesis HP : platform_ok P.

(** A run of appends splits the texts into consecutive groups: the
    first group joins the bytes already held, every later group starts
    after a commit; each [write] and the final buffer hold whole
    groups. *)
Lemma appends_groups (p : ptr) (texts : list (list byte)) :
  Forall (fun t => strlen t <= BUFSIZ P) texts ->
  forall st, buf_ok P (heap st p) ->
  exists st' g0 gs,
    appends P p texts st = Ret tt st' /\
    buf_ok P (heap st' p) /\
    texts = g0 ++ concat gs /\
    out st' ++ [held st' p]
    = out st ++ (held st p ++ payload g0) :: map payload gs.
Proof.
  induction 1 as [|t ts Ht _ IH]; intros st Hok.
  - exists st, [], []. cbn. repeat split; try apply Hok.
    now rewrite app_nil_r.
  - destruct (buf_append_held P HP p t st Hok Ht)
      as (st1 & Hrun & Hok1 & _ & _ & _ & _ & Hcase).
    destruct (IH st1 Hok1) as (st' & g0 & gs & Hruns & Hok' & Hsplit & Hout).
    cbn [appends]. unfold bind. rewrite Hrun.
    destruct (buf_used (heap st p) + strlen t >? BUFSIZ P).
    + destruct Hcase as (Ho & Hh & _).
      exists st', [], ((t :: g0) :: gs).
      repeat split; try assumption; try apply Hok'.
      * cbn. now rewrite Hsplit.
      * rewrite Hout, Ho, Hh. cbn. rewrite app_nil_r, <- app_assoc.
        reflexivity.
    + destruct Hcase as (Ho & Hh & _).
      exists st', (t :: g0), gs.
      repeat split; try assumption; try apply Hok'.
      * cbn. now rewrite Hsplit.
      * rewrite Hout, Ho, Hh. unfold payload. cbn. now rewrite <- app_assoc.
Qed.

(** Nothing is lost or duplicated on the way: what was written plus
    what is held grows by exactly the bytes appended. *)
Lemma appends_stream (p : ptr) (texts : list (list byte)) :
  Forall (fun t => strlen t <= BUFSIZ P) texts ->
  forall st, buf_ok P (heap st p) ->
  exists st',
    appends P p texts st = Ret tt st' /\
    buf_ok P (heap st' p) /\
    written st' ++ held st' p = written st ++ held st p ++ payload texts.
Proof.
  intros Hall st Hok.
  destruct (appends_groups p texts Hall st Hok)
    as (st' & g0 & gs & Hrun & Hok' & Hsplit & Hout).
  exists st'. repeat split; try assumption; try apply Hok'.
  apply (f_equal (@concat byte)) in Hout.
  rewrite !concat_app in Hout. cbn in Hout. rewrite app_nil_r in Hout.
  unfold written. rewrite Hout, Hsplit. unfold payload.
  rewrite map_app, concat_app, <- !app_assoc. do 3 f_equal.
  clear. induction gs as [|g gs IH]; cbn; [reflexivity|].
  now rewrite map_app, concat_app, IH.
Qed.

End Appends.

(** C1. Draw buffer protocol: for a buffer within its capacity, an append
    of a text no longer than the capacity returns with the buffer still
    within its capacity; when used length plus text length exceeds the
    capacity, one write of exactly the bytes held is made first and the
    text is then stored from offset 0, otherwise nothing is written and
    the text follows the bytes held.  Over a run of appends every write
    and the final buffer consist of whole texts: the texts split into
    consecutive groups, one per write plus one for the buffer. *)
Theorem draw_buffer_append_protocol
  (P : platform) (p : ptr) (st : world) :
  platform_ok P ->
  buf_ok P (heap st p) ->
  (forall text, strlen text <= BUFSIZ P ->
     exists st',
       _sctui_buf_append P p text st = Ret tt st' /\
       buf_size (heap st' p) = BUFSIZ P /\
       0 <= buf_used (heap st' p) <= BUFSIZ P /\
       if buf_used (heap st p) + strlen text >? BUFSIZ P
       then out st' = out st ++ [held st p] /\
            held st' p = cstr_bytes text /\
            buf_used (heap st' p) = strlen text
       else out st' = out st /\
            held st' p = held st p ++ cstr_bytes text /\
            buf_used (heap st' p) = buf_used (heap st p) + strlen text) /\
  (forall texts, Forall (fun t => strlen t <= BUFSIZ P) texts ->
     exists st' g0 gs,
       appends P p texts st = Ret tt st' /\
       0 <= buf_used (heap st' p) <= BUFSIZ P /\
       texts = g0 ++ concat gs /\
       out st' ++ [held st' p]
       = out st ++ (held st p ++ payload g0) :: map payload gs).
Proof.
  intros HP Hok. split.
  - intros text Hlen.
    destruct (buf_append_held P HP p text st Hok Hlen)
      as (st' & Hrun & [Hs Hu] & _ & _ & _ & _ & Hcase).
    exists st'. repeat split; try assumption; try lia.
  - intros texts Hall.
    destruct (appends_groups P HP p texts Hall st Hok)
      as (st' & g0 & gs & Hrun & [Hs Hu] & Hsplit & Hout).
    exists st', g0, gs. repeat split; try assumption; try lia.
Qed.

Lemma platform_ok_linux : platform_ok linux_glibc.
Proof. unfold platform_ok, INT_MAX. cbn. lia. Qed.

Lemma buf_ok_session1 : buf_ok linux_glibc (heap session1 1).
Proof. unfold buf_ok. cbn. lia. Qed.

Lemma draw_buffer_append_protocol_witness :
  platform_ok linux_glibc /\
  buf_ok linux_glibc (heap session1 1) /\
  exists st',
    _sctui_buf_append linux_glibc 1 ESC_HIDE_CURSOR session1 = Ret tt st' /\
    out st' = out session1 /\
    held st' 1 = held session1 1 ++ cstr_bytes ESC_HIDE_CURSOR.
Proof.
  split; [exact platform_ok_linux|]. split; [exact buf_ok_session1|].
  destruct (draw_buffer_append_protocol linux_glibc 1 session1
              platform_ok_linux buf_ok_session1) as [Hstep _].
  destruct (Hstep ESC_HIDE_CURSOR) as (st' & Hrun & _ & _ & Hcase).
  - cbn. lia.
  - exists st'. split; [exact Hrun|].
    change (buf_used (heap session1 1) + strlen ESC_HIDE_CURSOR >? BUFSIZ linux_glibc)
      with false in Hcase.
    destruct Hcase as (Ho & Hh & _). now split.
Defined.

(** C4. [sctui_commit] returns after one write whose bytes are exactly the
    [buf_used] bytes at the start of the buffer, and leaves the used
    length at 0 and the buffer's bytes in place; appends followed by a
    commit have written, all writes taken together, the bytes held at the
    start followed by the bytes of the appended texts in order. *)
Theorem commit_writes_held (P : platform) (p : ptr) (st : world) :
  (exists st1,
     sctui_commit p st = Ret tt st1 /\
     out st1 = out st ++ [held st p] /\
     length (held st p) = Z.to_nat (buf_used (heap st p)) /\
     (forall k, (k < length (held st p))%nat ->
        nth k (held st p) NUL = buf (heap st p) (Z.of_nat k)) /\
     buf_used (heap st1 p) = 0 /\
     buf (heap st1 p) = buf (heap st p)) /\
  (forall texts,
     platform_ok P ->
     buf_ok P (heap st p) ->
     Forall (fun t => strlen t <= BUFSIZ P) texts ->
     exists st2,
       (appends P p texts ;; sctui_commit p) st = Ret tt st2 /\
       written st2 = written st ++ held st p ++ payload texts /\
       buf_used (heap st2 p) = 0).
Proof.
  split.
  - destruct (sctui_commit_run p st) as (st1 & Hrun & Hout & Hheap & _).
    exists st1. rewrite Hheap. unfold held. rewrite read_bytes_length.
    repeat split; try assumption.
    intros k Hk. now apply read_bytes_nth.
  - intros texts HP Hok Hall.
    destruct (appends_stream P HP p texts Hall st Hok)
      as (st' & Hrun & _ & Hstream).
    destruct (sctui_commit_run p st') as (st2 & Hrun2 & Hout & Hheap & _).
    exists st2. unfold bind. rewrite Hrun. split; [exact Hrun2|].
    rewrite Hheap. split; [|reflexivity].
    unfold written in *. rewrite Hout, concat_app. cbn.
    now rewrite app_nil_r.
Qed.

Lemma commit_writes_held_witness :
  platform_ok linux_glibc /\
  buf_ok linux_glibc (heap session1 1) /\
  Forall (fun t => strlen t <= BUFSIZ linux_glibc)
         [ESC_HIDE_CURSOR; text_8192; ESC_SHOW_CURSOR] /\
  exists st2,
    (appends linux_glibc 1 [ESC_HIDE_CURSOR; text_8192; ESC_SHOW_CURSOR] ;;
     sctui_commit 1) session1 = Ret tt st2 /\
    written st2
    = written session1 ++ held session1 1
      ++ payload [ESC_HIDE_CURSOR; text_8192; ESC_SHOW_CURSOR] /\
    buf_used (heap st2 1) = 0.
Proof.
  assert (Hall : Forall (fun t => strlen t <= BUFSIZ linux_glibc)
                        [ESC_HIDE_CURSOR; text_8192; ESC_SHOW_CURSOR]).
  { repeat constructor; vm_compute; discriminate. }
  split; [exact platform_ok_linux|]. split; [exact buf_ok_session1|].
  split; [exact Hall|].
  destruct (commit_writes_held linux_glibc 1 session1) as [_ Hseq].
  exact (Hseq _ platform_ok_linux buf_ok_session1 Hall).
Defined.

(** The terminator of an append lands at the new used length; when the
    text fits exactly, that is offset [buf_size], one past the last byte
    of the allocation, and no commit has made room. *)
Lemma buf_append_exact_fit
  (P : platform) (p : ptr) (text : list byte) (st : world) :
  platform_ok P ->
  buf_ok P (heap st p) ->
  buf_used (heap st p) + strlen text = buf_size (heap st p) ->
  exists st',
    _sctui_buf_append P p text st = Ret tt st' /\
    out st' = out st /\
    buf_used (heap st' p) = buf_size (heap st p) /\
    buf (heap st' p) (buf_size (heap st p)) = NUL.
Proof.
  intros HP [Hsize Hused] Hfit.
  pose proof (strlen_nonneg text) as Hnn.
  assert (Hlen : strlen text <= BUFSIZ P) by lia.
  destruct (buf_append_run P p text st Hlen)
    as (st' & Hrun & Hout & Hheap & _).
  unfold platform_ok, INT_MAX in HP.
  rewrite size_add_small in Hout, Hheap by (unfold SIZE_MAX; lia).
  replace (buf_used (heap st p) + strlen text >? buf_size (heap st p))
    with false in Hout, Hheap by (symmetry; rewrite Z.gtb_ltb; apply Z.ltb_ge; lia).
  rewrite size_add_small in Hheap by (unfold SIZE_MAX; lia).
  exists st'. rewrite Hheap. cbn [buf buf_used set_buf set_buf_used].
  repeat split; try assumption.
  rewrite <- Hfit. apply stpcpy_terminator.
Qed.

(** C10. On the session set up by [sctui_init] on Linux (capacity 8192,
    buffer empty) the append of a text of 8192 bytes passes the [assert],
    triggers no commit, and stores its terminator at offset 8192: the byte
    there, which is not part of the allocation and held ["x"], is NUL
    afterwards.  So not every byte an append stores lies below the
    capacity. *)
Theorem buf_append_terminator_past_capacity :
  strlen text_8192 <= buf_size (heap session1 1) /\
  buf_used (heap session1 1) + strlen text_8192 = buf_size (heap session1 1) /\
  buf (heap session1 1) (buf_size (heap session1 1)) = "x"%byte /\
  exists st',
    _sctui_buf_append linux_glibc 1 text_8192 session1 = Ret tt st' /\
    out st' = out session1 /\
    buf (heap st' 1) (buf_size (heap session1 1)) = NUL.
Proof.
  assert (Hfit : buf_used (heap session1 1) + strlen text_8192
                 = buf_size (heap session1 1)) by (vm_compute; reflexivity).
  split; [vm_compute; discriminate|]. split; [exact Hfit|].
  split; [vm_compute; reflexivity|].
  destruct (buf_append_exact_fit linux_glibc 1 text_8192 session1
              platform_ok_linux buf_ok_session1 Hfit)
    as (st' & Hrun & Hout & _ & Hnul).
  exists st'. now repeat split.
Qed.

(** ** Cursor moves *)

Lemma digit_value (d : Z) :
  0 <= d < 10 -> Z.of_N (Byte.to_N (digit d)) - 48 = d.
Proof.
  intros Hd.
  assert (d = 0 \/ d = 1 \/ d = 2 \/ d = 3 \/ d = 4 \/ d = 5 \/ d = 6 \/
          d = 7 \/ d = 8 \/ d = 9) as Hc by lia.
  repeat (destruct Hc as [-> | Hc]; [reflexivity|]). now subst.
Qed.

Lemma digit_not_NUL (d : Z) : digit d <> NUL.
Proof.
  unfold digit. generalize (Z.to_nat d) as n. intros n.
  do 10 (destruct n as [|n]; [discriminate|]).
  destruct n; discriminate.
Qed.

Lemma dec_digits_shape (fuel : nat) :
  forall n acc,
    0 <= n < 10 ^ Z.of_nat fuel ->
    exists ds,
      dec_digits fuel n acc = ds ++ acc /\
      dec_value ds = n /\
      Forall (fun b => b <> NUL) ds /\
      (length ds <= fuel)%nat.
Proof.
  induction fuel as [|fuel IH]; intros n acc Hn.
  - exists []. cbn in *. repeat split; auto. unfold dec_value. cbn. lia.
  - cbn [dec_digits].
    assert (Hd : 0 <= n mod 10 < 10) by (apply Z.mod_pos_bound; lia).
    destruct (n / 10 =? 0) eqn:E.
    + apply Z.eqb_eq in E.
      exists [digit (n mod 10)]. repeat split.
      * unfold dec_value. cbn [fold_left]. rewrite digit_value by exact Hd.
        pose proof (Z.div_mod n 10). lia.
      * constructor; [apply digit_not_NUL|constructor].
      * cbn. lia.
    + apply Z.eqb_neq in E.
      rewrite Nat2Z.inj_succ, Z.pow_succ_r in Hn by lia.
      destruct (IH (n / 10) (digit (n mod 10) :: acc)) as (ds & Heq & Hv & Hnz & Hl).
      { split; [apply Z.div_pos; lia|].
        apply Z.div_lt_upper_bound; lia. }
      exists (ds ++ [digit (n mod 10)]). repeat split.
      * rewrite Heq, <- app_assoc. reflexivity.
      * unfold dec_value in *. rewrite fold_left_app, Hv. cbn [fold_left].
        rewrite digit_value by exact Hd.
        pose proof (Z.div_mod n 10). lia.
      * apply Forall_app. split; [exact Hnz|].
        constructor; [apply digit_not_NUL|constructor].
      * rewrite length_app. cbn. lia.
Qed.

(** [%u] prints the digits of its argument read as an unsigned 32-bit
    number. *)
Lemma fmt_u_shape (v : Z) :
  dec_value (fmt_u v) = to_uint v /\
  Forall (fun b => b <> NUL) (fmt_u v) /\
  (length (fmt_u v) <= 10)%nat.
Proof.
  unfold fmt_u.
  destruct (dec_digits_shape 10 (to_uint v) []) as (ds & Heq & Hv & Hnz & Hl).
  - unfold to_uint. pose proof (Z.mod_pos_bound v 4294967296).
    change (10 ^ Z.of_nat 10) with 10000000000. lia.
  - rewrite Heq, app_nil_r. auto.
Qed.

Lemma fmt_u_nonneg (v : Z) : 0 <= v <= INT_MAX -> dec_value (fmt_u v) = v.
Proof.
  intros Hv. destruct (fmt_u_shape v) as [-> _].
  unfold to_uint, INT_MAX in *. apply Z.mod_small. lia.
Qed.

Lemma sprintf_cursor_cstr (y x : Z) :
  cstr_bytes (sprintf_cursor y x) = sprintf_cursor y x.
Proof.
  apply cstr_bytes_id. unfold sprintf_cursor.
  destruct (fmt_u_shape y) as (_ & Hy & _).
  destruct (fmt_u_shape x) as (_ & Hx & _).
  repeat (constructor; [discriminate|]).
  apply Forall_app. split; [exact Hy|].
  constructor; [discriminate|].
  apply Forall_app. split; [exact Hx|].
  constructor; [discriminate|constructor].
Qed.

Lemma sprintf_cursor_strlen (y x : Z) : 0 <= strlen (sprintf_cursor y x) <= 24.
Proof.
  unfold strlen. rewrite sprintf_cursor_cstr. unfold sprintf_cursor.
  destruct (fmt_u_shape y) as (_ & _ & Hy).
  destruct (fmt_u_shape x) as (_ & _ & Hx).
  cbn [length]. rewrite length_app. cbn [length]. rewrite length_app. cbn [length].
  lia.
Qed.


(** Assignments to the cursor fields leave the draw buffer alone. *)
Lemma assign_cursor_run (p : ptr) (x y : Z) (st : world) :
  exists st',
    (assign p (fun s => set_cursor_x s x) ;;
     assign p (fun s => set_cursor_y s y)) st = Ret tt st' /\
    heap st' p = set_cursor_y (set_cursor_x (heap st p) x) y /\
    out st' = out st /\
    held st' p = held st p.
Proof.
  eexists. split; [reflexivity|]. unfold held. cbn.
  rewrite !Z.eqb_refl. cbn. now repeat split.
Qed.

Section Cursor.

Variable P : platform.
Hypothesis HP : platform_ok P.

Lemma sctui_cursor_same (p : ptr) (x y : Z) (st : world) :
  cursor_x (heap st p) = x -> cursor_y (heap st p) = y ->
  sctui_cursor P p x y st = Ret tt st.
Proof.
  intros Hx Hy. unfold sctui_cursor, bind, deref.
  apply Z.eqb_eq in Hx, Hy. now rewrite Hx, Hy.
Qed.

Lemma sctui_cursor_moved (p : ptr) (x y : Z) (st : world) :
  buf_ok P (heap st p) ->
  ~ (cursor_x (heap st p) = x /\ cursor_y (heap st p) = y) ->
  exists st',
    sctui_cursor P p x y st = Ret tt st' /\
    buf_ok P (heap st' p) /\
    cursor_x (heap st' p) = x /\ cursor_y (heap st' p) = y /\
    if buf_used (heap st p) + strlen (sprintf_cursor y x) >? BUFSIZ P
    then out st' = out st ++ [held st p] /\
         held st' p = sprintf_cursor y x /\
         buf_used (heap st' p) = strlen (sprintf_cursor y x)
    else out st' = out st /\
         held st' p = held st p ++ sprintf_cursor y x /\
         buf_used (heap st' p)
         = buf_used (heap st p) + strlen (sprintf_cursor y x).
Proof.
  intros Hok Hne.
  assert (Hlen : strlen (sprintf_cursor y x) <= BUFSIZ P).
  { pose proof (sprintf_cursor_strlen y x). unfold platform_ok in HP. lia. }
  destruct (buf_append_held P HP p _ st Hok Hlen)
    as (st1 & Hrun & Hok1 & _ & _ & _ & _ & Hcase).
  destruct (assign_cursor_run p x y st1) as (st' & Hasg & Hheap & Hout & Hheld).
  exists st'. split.
  - unfold sctui_cursor, bind at 1, deref.
    replace ((cursor_x (heap st p) =? x) && (cursor_y (heap st p) =? y))
      with false.
    + unfold bind at 1. rewrite Hrun. exact Hasg.
    + symmetry. apply andb_false_iff.
      destruct (Z.eqb_spec (cursor_x (heap st p)) x);
        destruct (Z.eqb_spec (cursor_y (heap st p)) y); auto.
      exfalso. auto.
  - rewrite Hheap, Hout, Hheld. rewrite sprintf_cursor_cstr in Hcase.
    split; [exact Hok1|]. split; [reflexivity|]. split; [reflexivity|].
    destruct (buf_used (heap st p) + strlen (sprintf_cursor y x) >? BUFSIZ P);
      tauto.
Qed.

End Cursor.

(** C3. [sctui_cursor] at the recorded position returns with the state
    unchanged.  At any other position it returns with the recorded position
    set to [(x, y)] and with the bytes ESC [ digits-of-y ; digits-of-x H
    added behind everything appended so far (behind the bytes held, or as
    the only bytes held when the append had to commit first); the digits
    are those of [%u], which denote the argument read as unsigned.  A
    second call with the same coordinates then changes nothing. *)
Theorem cursor_move_dedup (P : platform) (p : ptr) (x y : Z) (st : world) :
  platform_ok P ->
  buf_ok P (heap st p) ->
  let esc := ESC :: "["%byte :: fmt_u y ++ ";"%byte :: fmt_u x ++ ["H"%byte] in
  (cursor_x (heap st p) = x /\ cursor_y (heap st p) = y ->
   sctui_cursor P p x y st = Ret tt st) /\
  (~ (cursor_x (heap st p) = x /\ cursor_y (heap st p) = y) ->
   exists st',
     sctui_cursor P p x y st = Ret tt st' /\
     cursor_x (heap st' p) = x /\ cursor_y (heap st' p) = y /\
     written st' ++ held st' p = written st ++ held st p ++ esc /\
     (if buf_used (heap st p) + strlen esc >? BUFSIZ P
      then out st' = out st ++ [held st p] /\ held st' p = esc
      else out st' = out st /\ held st' p = held st p ++ esc) /\
     sctui_cursor P p x y st' = Ret tt st') /\
  dec_value (fmt_u y) = to_uint y /\
  dec_value (fmt_u x) = to_uint x.
Proof.
  intros HP Hok esc. subst esc.
  change (ESC :: "["%byte :: fmt_u y ++ ";"%byte :: fmt_u x ++ ["H"%byte])
    with (sprintf_cursor y x).
  split; [|split; [|split; apply fmt_u_shape]].
  - intros [Hx Hy]. now apply sctui_cursor_same.
  - intros Hne.
    destruct (sctui_cursor_moved P HP p x y st Hok Hne)
      as (st' & Hrun & _ & Hx & Hy & Hcase).
    exists st'. split; [exact Hrun|]. split; [exact Hx|]. split; [exact Hy|].
    split; [|split; [|now apply sctui_cursor_same]].
    + unfold written.
      destruct (buf_used (heap st p) + strlen (sprintf_cursor y x) >? BUFSIZ P);
        destruct Hcase as (-> & -> & _).
      * rewrite concat_app. cbn. now rewrite app_nil_r, <- app_assoc.
      * reflexivity.
    + destruct (buf_used (heap st p) + strlen (sprintf_cursor y x) >? BUFSIZ P);
        tauto.
Qed.

Lemma cursor_move_dedup_witness :
  platform_ok linux_glibc /\
  buf_ok linux_glibc (heap session1 1) /\
  exists st',
    sctui_cursor linux_glibc 1 7 3 session1 = Ret tt st' /\
    held st' 1 = [ESC; "["; "3"; ";"; "7"; "H"]%byte /\
    sctui_cursor linux_glibc 1 7 3 st' = Ret tt st'.
Proof.
  split; [exact platform_ok_linux|]. split; [exact buf_ok_session1|].
  destruct (cursor_move_dedup linux_glibc 1 7 3 session1
              platform_ok_linux buf_ok_session1) as (_ & Hmove & _).
  destruct Hmove as (st' & Hrun & _ & _ & _ & Hcase & Hagain).
  - cbn. intros [H _]. discriminate H.
  - exists st'. split; [exact Hrun|]. split; [|exact Hagain].
    change (buf_used (heap session1 1)
            + strlen (ESC :: "["%byte :: fmt_u 3 ++ ";"%byte :: fmt_u 7 ++ ["H"%byte])
            >? BUFSIZ linux_glibc) with false in Hcase.
    destruct Hcase as [_ ->]. reflexivity.
Defined.

(** ** Session set-up and the window size *)

Lemma bind_ret_inv {A B : Type} (c : M A) (k : A -> M B) (st st2 : world) (b : B) :
  bind c k st = Ret b st2 ->
  exists a st1, c st = Ret a st1 /\ k a st1 = Ret b st2.
Proof.
  unfold bind. destruct (c st) as [a st1| |]; try discriminate.
  intros H. now exists a, st1.
Qed.

Lemma assign_inv (p : ptr) (f : sctui -> sctui) (st st' : world) (u : unit) :
  assign p f st = Ret u st' ->
  heap st' p = f (heap st p) /\
  out st' = out st /\ global_sctui st' = global_sctui st /\ tty st' = tty st /\
  same_oracle st st'.
Proof.
  unfold assign, same_oracle. intros [= _ <-].
  cbn [set_heap heap out global_sctui tty ioctl_ret ioctl_ws next_alloc].
  rewrite Z.eqb_refl. now repeat split.
Qed.

Tactic Notation "inv_bind" hyp(H) "as" ident(H1) :=
  let a := fresh "a" in
  let s := fresh "st" in
  apply bind_ret_inv in H; destruct H as (a & s & H1 & H).

Tactic Notation "inv_assign" hyp(H) "as" ident(Hh) ident(Hg) :=
  apply assign_inv in H; destruct H as (Hh & _ & Hg & _ & _).

(** An assignment whose effect on the fields of interest is not needed:
    only the value of [global_sctui] is carried along. *)
Ltac skip_assign H Hg :=
  let Hs := fresh "Hs" in
  let Hh := fresh "Hh" in
  let Hg' := fresh "Hg" in
  inv_bind H as Hs; inv_assign Hs as Hh Hg';
  rewrite Hg in Hg'; clear Hg Hh; rename Hg' into Hg.

Lemma write_stdout_inv (data : list byte) (st st' : world) (u : unit) :
  write_stdout data st = Ret u st' ->
  heap st' = heap st /\
  out st' = out st ++ [data] /\ global_sctui st' = global_sctui st /\
  tty st' = tty st /\ same_oracle st st'.
Proof. unfold write_stdout, same_oracle. intros [= _ <-]. now repeat split. Qed.

Lemma sctui_get_win_inv (p : ptr) (st st' : world) (u : unit) :
  sctui_get_win p st = Ret u st' ->
  ioctl_ret st <> -1 /\ fst (ioctl_ws st) <> 0 /\
  w (heap st' p) = fst (ioctl_ws st) /\
  h (heap st' p) = (if snd (ioctl_ws st) =? 0 then 24 else snd (ioctl_ws st)) /\
  out st' = out st /\ global_sctui st' = global_sctui st /\ tty st' = tty st /\
  same_oracle st st'.
Proof.
  unfold sctui_get_win. intros H.
  inv_bind H as Hio. injection Hio as <- <-.
  destruct (ioctl_ws st) as [ws_col ws_row] eqn:Ews. cbn [fst snd].
  inv_bind H as Hif.
  destruct ((ioctl_ret st =? -1) || (ws_col =? 0)) eqn:Ec.
  - exfalso. unfold bind, sctui_fini, bind, get_global_sctui, assert in Hif.
    destruct (negb (global_sctui st =? NULL)); discriminate Hif.
  - injection Hif as _ <-.
    apply orb_false_iff in Ec. destruct Ec as [Er Ecol].
    apply Z.eqb_neq in Er, Ecol.
    inv_bind H as Hw.
    apply assign_inv in Hw. destruct Hw as (Hh1 & Ho1 & Hg1 & Ht1 & Hr1).
    apply assign_inv in H. destruct H as (Hh2 & Ho2 & Hg2 & Ht2 & Hr2).
    rewrite Hh2, Hh1. cbn [w h set_w set_h].
    destruct (Z.eqb_spec ws_col 0) as [?|_]; [contradiction|].
    unfold same_oracle in *.
    destruct (Z.eqb_spec ws_row 0); cbn [negb];
      repeat split; try congruence; intuition congruence.
Qed.

Lemma sctui_init_returns (P : platform) (p : ptr) (st st1 : world) :
  sctui_init P p st = Ret tt st1 ->
  global_sctui st = NULL /\
  global_sctui st1 = p /\
  cursor_x (heap st1 p) = 1 /\ cursor_y (heap st1 p) = 1 /\
  buf_size (heap st1 p) = BUFSIZ P /\ buf_used (heap st1 p) = 0.
Proof.
  intros H. unfold sctui_init in H.
  inv_bind H as Hget. injection Hget as <- <-.
  inv_bind H as Hdie.
  destruct (Z.eqb_spec (global_sctui st) NULL) as [Hnull|Hnull];
    cbn [negb] in Hdie; [|discriminate Hdie].
  injection Hdie as _ <-.
  inv_bind H as Htc. injection Htc as <- <-.
  inv_bind H as Horig. clear Horig.
  inv_bind H as Hput. injection Hput as _ <-.
  match type of H with
  | _ (set_global_sctui ?s p) = _ =>
      assert (Hg : global_sctui (set_global_sctui s p) = p) by reflexivity
  end.
  do 7 skip_assign H Hg.
  inv_bind H as Hderef. injection Hderef as <- <-.
  inv_bind H as Htty. injection Htty as _ <-.
  inv_bind H as Halt. injection Halt as _ <-.
  inv_bind H as Hwin. apply sctui_get_win_inv in Hwin.
  destruct Hwin as (_ & _ & _ & _ & _ & Hg' & _ & _).
  cbn [global_sctui set_tty set_out] in Hg'. rewrite Hg in Hg'. clear Hg.
  inv_bind H as Hcy. inv_assign Hcy as Hh1 Hg1.
  inv_bind H as Hcx. inv_assign Hcx as Hh2 Hg2.
  inv_bind H as Hmem. unfold _sctui_ecalloc, bind, calloc in Hmem.
  match type of Hmem with context [next_alloc ?s] => destruct (next_alloc s) end;
    cbv beta iota in Hmem;
    [|unfold _sctui_die, vfprintf_stderr in Hmem; discriminate Hmem].
  unfold ret in Hmem. injection Hmem as <- <-.
  inv_bind H as Hbuf. inv_assign Hbuf as Hh3 Hg3.
  inv_bind H as Hsize. inv_assign Hsize as Hh4 Hg4.
  inv_bind H as Hused. inv_assign Hused as Hh5 Hg5.
  apply write_stdout_inv in H. destruct H as (Hh6 & _ & Hg6 & _ & _).
  rewrite Hh6, Hh5, Hh4, Hh3, Hh2, Hh1.
  cbn [cursor_x cursor_y buf_size buf_used set_buf set_buf_size set_buf_used
       set_cursor_x set_cursor_y].
  repeat split; try assumption. congruence.
Qed.

(** The failing path of [sctui_get_win], with a session in place:
    [sctui_fini] leaves the alternate screen and restores the attributes
    saved in the global session, then the process exits with status 1. *)
Lemma sctui_get_win_fails (p : ptr) (st : world) :
  global_sctui st <> NULL ->
  ioctl_ret st = -1 \/ fst (ioctl_ws st) = 0 ->
  sctui_get_win p st
  = Exit 1
      (set_err
         (set_tty (set_out st (out st ++ [ESC_CLOSE_ALT_SCREEN]))
                  (orig (heap st (global_sctui st))))
         (err st ++ msg_winsize)).
Proof.
  intros Hg Hfail. unfold sctui_get_win, bind at 1, ioctl_TIOCGWINSZ.
  destruct (ioctl_ws st) as [ws_col ws_row]. cbn [fst] in Hfail.
  assert (Hc : (ioctl_ret st =? -1) || (ws_col =? 0) = true).
  { apply orb_true_iff. destruct Hfail as [H|H]; [left|right];
      now apply Z.eqb_eq. }
  unfold bind at 1. rewrite Hc.
  unfold sctui_fini, bind, get_global_sctui, assert.
  apply Z.eqb_neq in Hg. rewrite Hg. reflexivity.
Qed.

Lemma sctui_get_win_returns (p : ptr) (st : world) :
  ioctl_ret st <> -1 -> fst (ioctl_ws st) <> 0 ->
  exists st',
    sctui_get_win p st = Ret tt st' /\
    w (heap st' p) = fst (ioctl_ws st) /\
    h (heap st' p) = (if snd (ioctl_ws st) =? 0 then 24 else snd (ioctl_ws st)) /\
    out st' = out st /\ err st' = err st /\ tty st' = tty st.
Proof.
  intros Hr Hcol. unfold sctui_get_win, bind at 1, ioctl_TIOCGWINSZ.
  destruct (ioctl_ws st) as [ws_col ws_row]. cbn [fst snd] in *.
  apply Z.eqb_neq in Hr, Hcol.
  unfold bind at 1. rewrite Hr, Hcol. cbn [orb].
  eexists. split; [reflexivity|].
  cbn [heap set_heap out err tty]. rewrite !Z.eqb_refl.
  cbn [w h set_w set_h negb].
  destruct (ws_row =? 0); now repeat split.
Qed.

(** C6 (amended). With a session in place, [sctui_get_win] exits with
    status 1 when the query fails and also when it succeeds but reports
    zero columns, after leaving the alternate screen and restoring the
    saved terminal attributes.  Otherwise it returns with [w] the reported
    column count and [h] the reported row count, or 24 when that is zero;
    the width is never replaced by 80. *)
Theorem get_win_zero_columns_fatal (p : ptr) (st : world) :
  (global_sctui st <> NULL ->
   ioctl_ret st = -1 \/ fst (ioctl_ws st) = 0 ->
   exists st',
     sctui_get_win p st = Exit 1 st' /\
     out st' = out st ++ [ESC_CLOSE_ALT_SCREEN] /\
     tty st' = orig (heap st (global_sctui st)) /\
     err st' = err st ++ msg_winsize /\
     heap st' = heap st) /\
  (ioctl_ret st <> -1 -> fst (ioctl_ws st) <> 0 ->
   exists st',
     sctui_get_win p st = Ret tt st' /\
     w (heap st' p) = fst (ioctl_ws st) /\
     h (heap st' p)
     = (if snd (ioctl_ws st) =? 0 then 24 else snd (ioctl_ws st)) /\
     out st' = out st /\ err st' = err st /\ tty st' = tty st).
Proof.
  split.
  - intros Hg Hfail. eexists. split; [now apply sctui_get_win_fails|].
    now repeat split.
  - apply sctui_get_win_returns.
Qed.

Lemma get_win_zero_columns_fatal_witness :
  global_sctui session1_zero_cols <> NULL /\
  (ioctl_ret session1_zero_cols = -1 \/ fst (ioctl_ws session1_zero_cols) = 0) /\
  exists st',
    sctui_get_win 1 session1_zero_cols = Exit 1 st' /\
    out st' = out session1_zero_cols ++ [ESC_CLOSE_ALT_SCREEN] /\
    tty st' = orig (heap session1_zero_cols (global_sctui session1_zero_cols)) /\
    err st' = err session1_zero_cols ++ msg_winsize /\
    heap st' = heap session1_zero_cols.
Proof.
  assert (Hg : global_sctui session1_zero_cols <> NULL) by (cbn; discriminate).
  assert (Hz : ioctl_ret session1_zero_cols = -1 \/
               fst (ioctl_ws session1_zero_cols) = 0) by (right; reflexivity).
  split; [exact Hg|]. split; [exact Hz|].
  exact (proj1 (get_win_zero_columns_fatal 1 session1_zero_cols) Hg Hz).
Defined.

(** C6, as stated, fails: on a terminal whose successful query reports
    0 columns and 30 rows the call does not return with the 80-column
    fallback; the process exits with status 1. *)
Lemma get_win_zero_columns_no_fallback :
  ioctl_ret session1_zero_cols <> -1 /\
  ioctl_ws session1_zero_cols = (0, 30) /\
  (exists st', sctui_get_win 1 session1_zero_cols = Exit 1 st') /\
  ~ (exists st',
       sctui_get_win 1 session1_zero_cols = Ret tt st' /\
       w (heap st' 1) = 80).
Proof.
  split; [cbn; discriminate|]. split; [reflexivity|].
  assert (Hrun : sctui_get_win 1 session1_zero_cols
                 = Exit 1
                     (set_err
                        (set_tty
                           (set_out session1_zero_cols
                              (out session1_zero_cols ++ [ESC_CLOSE_ALT_SCREEN]))
                           (orig (heap session1_zero_cols
                                    (global_sctui session1_zero_cols))))
                        (err session1_zero_cols ++ msg_winsize))).
  { apply sctui_get_win_fails; [cbn; discriminate|right; reflexivity]. }
  split.
  - eexists. exact Hrun.
  - intros (st' & Hret & _). rewrite Hrun in Hret. discriminate Hret.
Qed.

(** C8. When [global_sctui] is set, that is, a session is in place,
    [sctui_init] exits with status 1 having only printed its message on
    [stderr]: every [struct sctui], the global pointer, the terminal
    attributes and the output are as before.  [sctui_init] itself sets
    [global_sctui] to the session it has set up, so a second call after a
    first one that returned (for a pointer other than [NULL]) ends this
    way. *)
Theorem init_twice_fatal (P : platform) (p : ptr) (st : world) :
  (global_sctui st <> NULL ->
   exists st',
     sctui_init P p st = Exit 1 st' /\
     heap st' = heap st /\
     global_sctui st' = global_sctui st /\
     tty st' = tty st /\
     out st' = out st /\
     input st' = input st /\
     err st' = err st ++ msg_initialized) /\
  (forall st1 q,
     p <> NULL ->
     sctui_init P p st = Ret tt st1 ->
     exists st2,
       sctui_init P q st1 = Exit 1 st2 /\
       heap st2 = heap st1 /\
       global_sctui st2 = p /\
       tty st2 = tty st1 /\
       out st2 = out st1 /\
       err st2 = err st1 ++ msg_initialized).
Proof.
  assert (Hexit : forall q s, global_sctui s <> NULL ->
            sctui_init P q s = Exit 1 (set_err s (err s ++ msg_initialized))).
  { intros q s Hg. unfold sctui_init, bind at 1, get_global_sctui.
    unfold bind at 1. apply Z.eqb_neq in Hg. rewrite Hg. reflexivity. }
  split.
  - intros Hg. eexists. split; [now apply Hexit|]. now repeat split.
  - intros st1 q Hp Hinit.
    destruct (sctui_init_returns P p st st1 Hinit) as (_ & Hg1 & _).
    eexists. split; [apply Hexit; congruence|].
    now repeat split.
Qed.

Lemma init_twice_fatal_witness :
  global_sctui session1 <> NULL /\
  exists st',
    sctui_init linux_glibc 2 session1 = Exit 1 st' /\
    heap st' = heap session1 /\
    global_sctui st' = global_sctui session1 /\
    tty st' = tty session1 /\
    out st' = out session1 /\
    input st' = input session1 /\
    err st' = err session1 ++ msg_initialized.
Proof.
  assert (Hg : global_sctui session1 <> NULL) by (cbn; discriminate).
  split; [exact Hg|].
  exact (proj1 (init_twice_fatal linux_glibc 2 session1) Hg).
Defined.

Lemma gtb_false (a b : Z) : a <= b -> (a >? b) = false.
Proof. intros H. rewrite Z.gtb_ltb. apply Z.ltb_ge. exact H. Qed.

(** The three calls of the example, run from the state in which
    [sctui_init] returns. *)
Lemma cursor_5_5_5_5_6_5_run
  (P : platform) (p : ptr) (st st1 : world) :
  platform_ok P ->
  sctui_init P p st = Ret tt st1 ->
  exists st4,
    cursor_5_5_5_5_6_5 P p st1 = Ret tt st4 /\
    out st4 = out st1 /\
    held st1 p = [] /\
    held st4 p = [ESC; "["; "5"; ";"; "5"; "H";
                  ESC; "["; "5"; ";"; "6"; "H"]%byte /\
    cursor_x (heap st4 p) = 6 /\ cursor_y (heap st4 p) = 5.
Proof.
  intros HP Hinit.
  destruct (sctui_init_returns P p st st1 Hinit)
    as (_ & _ & Hx1 & Hy1 & Hsize & Hused).
  assert (Hok1 : buf_ok P (heap st1 p)).
  { unfold buf_ok, platform_ok in *. lia. }
  assert (Hheld1 : held st1 p = []).
  { unfold held. now rewrite Hused. }
  assert (Hcap : 256 <= BUFSIZ P) by (unfold platform_ok in HP; lia).
  (* first call: from (1,1) to (5,5) *)
  destruct (sctui_cursor_moved P HP p 5 5 st1 Hok1)
    as (st2 & Hrun2 & Hok2 & Hx2 & Hy2 & Hcase2).
  { rewrite Hx1. intros [H _]. discriminate H. }
  change (sprintf_cursor 5 5) with [ESC; "["; "5"; ";"; "5"; "H"]%byte in Hcase2.
  change (strlen [ESC; "["; "5"; ";"; "5"; "H"]%byte) with 6 in Hcase2.
  rewrite Hused, gtb_false in Hcase2 by lia.
  destruct Hcase2 as (Hout2 & Hheld2 & Hused2).
  (* second call: already at (5,5) *)
  pose proof (sctui_cursor_same P p 5 5 st2 Hx2 Hy2) as Hrun3.
  (* third call: from (5,5) to (6,5) *)
  destruct (sctui_cursor_moved P HP p 6 5 st2 Hok2)
    as (st4 & Hrun4 & _ & Hx4 & Hy4 & Hcase4).
  { rewrite Hx2. intros [H _]. discriminate H. }
  change (sprintf_cursor 5 6) with [ESC; "["; "5"; ";"; "6"; "H"]%byte in Hcase4.
  change (strlen [ESC; "["; "5"; ";"; "6"; "H"]%byte) with 6 in Hcase4.
  rewrite Hused2, gtb_false in Hcase4 by lia.
  destruct Hcase4 as (Hout4 & Hheld4 & _).
  exists st4. unfold cursor_5_5_5_5_6_5, bind.
  rewrite Hrun2, Hrun3, Hrun4.
  repeat split; try assumption.
  - congruence.
  - rewrite Hheld4, Hheld2, Hheld1. reflexivity.
Qed.


(** C9 (amended). In the state in which [sctui_init] returns, the calls
    [sctui_cursor] for (5,5), (5,5) and (6,5) return having appended two
    escape sequences to the empty draw buffer and written nothing: the one
    for (5,5), since the position recorded by [sctui_init] is (1,1), and
    the one for (6,5); the second call contributes nothing. *)
Theorem cursor_example_after_init
  (P : platform) (p : ptr) (st st1 : world) :
  platform_ok P ->
  sctui_init P p st = Ret tt st1 ->
  exists st4,
    cursor_5_5_5_5_6_5 P p st1 = Ret tt st4 /\
    out st4 = out st1 /\
    held st1 p = [] /\
    held st4 p = [ESC; "["; "5"; ";"; "5"; "H";
                  ESC; "["; "5"; ";"; "6"; "H"]%byte /\
    cursor_x (heap st4 p) = 6 /\ cursor_y (heap st4 p) = 5.
Proof. apply cursor_5_5_5_5_6_5_run. Qed.

Lemma init_session1 : sctui_init linux_glibc 1 world0 = Ret tt session1.
Proof. vm_compute. reflexivity. Qed.

Lemma cursor_example_after_init_witness :
  platform_ok linux_glibc /\
  sctui_init linux_glibc 1 world0 = Ret tt session1 /\
  exists st4,
    cursor_5_5_5_5_6_5 linux_glibc 1 session1 = Ret tt st4 /\
    out st4 = out session1 /\
    held session1 1 = [] /\
    held st4 1 = [ESC; "["; "5"; ";"; "5"; "H";
                  ESC; "["; "5"; ";"; "6"; "H"]%byte /\
    cursor_x (heap st4 1) = 6 /\ cursor_y (heap st4 1) = 5.
Proof.
  split; [exact platform_ok_linux|]. split; [exact init_session1|].
  exact (cursor_example_after_init linux_glibc 1 world0 session1
           platform_ok_linux init_session1).
Defined.

(** C9, as stated, fails: after [sctui_init] the three calls leave twelve
    bytes in the draw buffer, the sequences for (5,5) and for (6,5), not
    the six bytes of the sequence for (6,5) alone. *)
Lemma cursor_example_not_one_sequence :
  sctui_init linux_glibc 1 world0 = Ret tt session1 /\
  exists st4,
    cursor_5_5_5_5_6_5 linux_glibc 1 session1 = Ret tt st4 /\
    held st4 1 = [ESC; "["; "5"; ";"; "5"; "H";
                  ESC; "["; "5"; ";"; "6"; "H"]%byte /\
    held st4 1 <> [ESC; "["; "5"; ";"; "6"; "H"]%byte.
Proof.
  split; [exact init_session1|].
  destruct (cursor_5_5_5_5_6_5_run linux_glibc 1 world0 session1
              platform_ok_linux init_session1)
    as (st4 & Hrun & _ & _ & Hheld & _).
  exists st4. split; [exact Hrun|]. split; [exact Hheld|].
  rewrite Hheld. discriminate.
Qed.

(** ** Key presses *)

(** C5 (amended). [sctui_grab_key] always returns.  When a byte arrives
    within the timeout it is stored in the first byte of the key buffer
    and the rest of the buffer is kept.  When none arrives the key buffer
    comes back exactly as it was passed: the call reports nothing of its
    own, so after a call that stored [b] a call without input still shows
    [b]. *)
Theorem grab_key_result (keybuf : mem) (st : world) :
  (forall b rest,
     input st = Some b :: rest ->
     exists keybuf' st',
       sctui_grab_key keybuf st = Ret keybuf' st' /\
       keybuf' 0 = b /\
       (forall j, j <> 0 -> keybuf' j = keybuf j) /\
       input st' = rest) /\
  (input st = [] \/ (exists rest, input st = None :: rest) ->
   exists st',
     sctui_grab_key keybuf st = Ret keybuf st' /\
     input st' = tl (input st)) /\
  (forall b rest,
     input st = Some b :: rest ->
     rest = [] \/ (exists rest', rest = None :: rest') ->
     exists keybuf1 st1 st2,
       sctui_grab_key keybuf st = Ret keybuf1 st1 /\
       sctui_grab_key keybuf1 st1 = Ret keybuf1 st2 /\
       grab_key_twice keybuf st = Ret keybuf1 st2 /\
       keybuf1 0 = b).
Proof.
  unfold grab_key_twice, bind, sctui_grab_key, read_stdin_1.
  split; [|split].
  - intros b rest ->. do 2 eexists. split; [reflexivity|].
    split; [apply upd_same|]. split; [|reflexivity].
    intros j Hj. now apply upd_other.
  - intros [H | [rest H]]; rewrite H; eexists; (split; [reflexivity|]).
    + exact H.
    + reflexivity.
  - intros b rest -> [-> | [rest' ->]]; cbn [input set_input];
      do 3 eexists; repeat split; apply upd_same.
Qed.

Lemma grab_key_result_witness :
  input (set_input world0 [Some "a"%byte; None]) = Some "a"%byte :: [None] /\
  ([@None byte] = [] \/ (exists rest', [@None byte] = None :: rest')) /\
  exists keybuf1 st1 st2,
    sctui_grab_key (fun _ => NUL) (set_input world0 [Some "a"%byte; None])
    = Ret keybuf1 st1 /\
    sctui_grab_key keybuf1 st1 = Ret keybuf1 st2 /\
    grab_key_twice (fun _ => NUL) (set_input world0 [Some "a"%byte; None])
    = Ret keybuf1 st2 /\
    keybuf1 0 = "a"%byte.
Proof.
  assert (Hin : input (set_input world0 [Some "a"%byte; None])
                = Some "a"%byte :: [None]) by reflexivity.
  assert (Hno : [@None byte] = [] \/ (exists rest', [@None byte] = None :: rest'))
    by (right; now exists []).
  split; [exact Hin|]. split; [exact Hno|].
  destruct (grab_key_result (fun _ => NUL)
              (set_input world0 [Some "a"%byte; None])) as (_ & _ & Htwice).
  exact (Htwice _ _ Hin Hno).
Defined.

(** C5, as stated, fails: with the byte ["a"] arriving for a first call
    and nothing arriving for a second one, the second call returns the key
    buffer of the first, whose first byte is still ["a"]; nothing tells
    the two results apart. *)
Lemma grab_key_stale_byte :
  exists keybuf1 st1 st2,
    sctui_grab_key (fun _ => NUL) (set_input world0 [Some "a"%byte; None])
    = Ret keybuf1 st1 /\
    input st1 = [None] /\
    sctui_grab_key keybuf1 st1 = Ret keybuf1 st2 /\
    keybuf1 0 = "a"%byte.
Proof.
  do 3 eexists. repeat split.
Qed.

(** ** Fixed-width lines *)

Lemma fill_spaces_spec (n : nat) :
  forall i buf,
    snd (fill_spaces n i buf) = i + Z.of_nat n /\
    forall j, fst (fill_spaces n i buf) j
              = if (i <=? j) && (j <? i + Z.of_nat n) then SP else buf j.
Proof.
  induction n as [|n IH]; intros i buf.
  - cbn [fill_spaces fst snd]. split; [cbn; lia|].
    intros j. destruct (Z.leb_spec i j); destruct (Z.ltb_spec j (i + Z.of_nat 0));
      cbn [andb]; try reflexivity; lia.
  - cbn [fill_spaces]. destruct (IH (i + 1) (upd buf i SP)) as [Hi Hj].
    split; [rewrite Hi; lia|].
    intros j. rewrite Hj. unfold upd.
    destruct (Z.leb_spec (i + 1) j); destruct (Z.ltb_spec j (i + 1 + Z.of_nat n));
      destruct (Z.leb_spec i j); destruct (Z.ltb_spec j (i + Z.of_nat (S n)));
      destruct (Z.eqb_spec j i); cbn [andb]; try reflexivity; lia.
Qed.

Lemma blank_rest_spec (n : nat) (lim : Z) :
  forall i buf,
    snd (blank_rest n i lim buf) = i + Z.of_nat n /\
    forall j, fst (blank_rest n i lim buf) j
              = if (i <=? j) && (j <? i + Z.of_nat n)
                then if (j <? lim) && negb (Byte.eqb (buf j) NL)
                     then buf j else SP
                else buf j.
Proof.
  induction n as [|n IH]; intros i buf.
  - cbn [blank_rest fst snd]. split; [cbn; lia|].
    intros j. destruct (Z.leb_spec i j); destruct (Z.ltb_spec j (i + Z.of_nat 0));
      cbn [andb]; try reflexivity; lia.
  - cbn [blank_rest].
    destruct ((i <? lim) && negb (Byte.eqb (buf i) NL)) eqn:Ei.
    + destruct (IH (i + 1) buf) as [Hi Hj].
      split; [rewrite Hi; lia|].
      intros j. rewrite Hj.
      destruct (Z.eq_dec j i) as [->|Hne].
      * rewrite Ei.
        destruct (Z.leb_spec (i + 1) i); [lia|]. cbn [andb].
        destruct (Z.leb_spec i i); [|lia].
        destruct (Z.ltb_spec i (i + Z.of_nat (S n))); [|lia]. reflexivity.
      * destruct (Z.leb_spec (i + 1) j);
          destruct (Z.ltb_spec j (i + 1 + Z.of_nat n));
          destruct (Z.leb_spec i j);
          destruct (Z.ltb_spec j (i + Z.of_nat (S n)));
          cbn [andb]; try reflexivity; lia.
    + destruct (IH (i + 1) (upd buf i SP)) as [Hi Hj].
      split; [rewrite Hi; lia|].
      intros j. rewrite Hj.
      destruct (Z.eq_dec j i) as [->|Hne].
      * rewrite Ei, upd_same.
        destruct (Z.leb_spec (i + 1) i); [lia|]. cbn [andb].
        destruct (Z.leb_spec i i); [|lia].
        destruct (Z.ltb_spec i (i + Z.of_nat (S n))); [|lia]. reflexivity.
      * rewrite upd_other by exact Hne.
        destruct (Z.leb_spec (i + 1) j);
          destruct (Z.ltb_spec j (i + 1 + Z.of_nat n));
          destruct (Z.leb_spec i j);
          destruct (Z.ltb_spec j (i + Z.of_nat (S n)));
          cbn [andb]; try reflexivity; lia.
Qed.

Lemma nth_cstr_bytes_not_NUL (t : list byte) (k : nat) :
  (k < length (cstr_bytes t))%nat -> nth k (cstr_bytes t) NUL <> NUL.
Proof.
  intros Hk. pose proof (cstr_bytes_no_NUL t) as Hall.
  rewrite Forall_forall in Hall. apply Hall. now apply nth_In.
Qed.

Lemma nl_to_sp_clean (b : byte) : b <> NUL -> nl_to_sp b <> NUL /\ nl_to_sp b <> NL.
Proof.
  intros Hb. unfold nl_to_sp. destruct (Byte.eqb b NL) eqn:E.
  - split; discriminate.
  - split; [exact Hb|]. now apply Byte.eqb_false.
Qed.

(** The cells of the destination after [sctui_prepare_text], for
    arguments in the range the arithmetic of the function covers. *)
Lemma prepare_text_cells (buf : mem) (offset w : Z) (text : list byte) :
  0 <= w <= INT_MAX ->
  INT_MIN <= offset <= w ->
  w - offset <= INT_MAX ->
  strlen text <= INT_MAX ->
  (forall j, 0 <= j < w ->
     sctui_prepare_text buf offset w text j = line_spec offset w text j) /\
  sctui_prepare_text buf offset w text w = NUL.
Proof.
  intros Hw Hoff Hdiff Htl.
  pose proof (strlen_nonneg text) as Hnn.
  unfold sctui_prepare_text.
  rewrite (to_int_small (strlen text)) by (unfold INT_MIN, INT_MAX in *; lia).
  rewrite (to_int_small (w - offset)) by (unfold INT_MIN, INT_MAX in *; lia).
  set (len := if w - offset >? strlen text then strlen text else w - offset).
  assert (Hlen : len = Z.min (strlen text) (w - offset)).
  { subst len. rewrite Z.gtb_ltb.
    destruct (Z.ltb_spec (strlen text) (w - offset)); lia. }
  assert (Hlen0 : 0 <= len <= w - offset) by lia.
  rewrite (to_int_small (offset + len)) by (unfold INT_MIN, INT_MAX in *; lia).
  rewrite (to_size_t_small len) by (unfold SIZE_MAX, INT_MAX in *; lia).
  set (m1 := strncpy buf offset text len).
  destruct (fill_spaces (Z.to_nat offset) 0 m1) as [m2 i2] eqn:E2.
  pose proof (fill_spaces_spec (Z.to_nat offset) 0 m1) as [_ H2].
  rewrite E2 in H2. cbn [fst] in H2.
  destruct (blank_rest (Z.to_nat (w - offset)) offset (offset + len) m2)
    as [m3 i3] eqn:E3.
  pose proof (blank_rest_spec (Z.to_nat (w - offset)) (offset + len) offset m2)
    as [Hi3 H3].
  rewrite E3 in Hi3, H3. cbn [fst snd] in Hi3, H3.
  assert (Hi : i3 = w) by lia. clear Hi3 E3. subst i3.
  split.
  - intros j Hj. rewrite upd_other by lia. rewrite H3.
    unfold line_spec. rewrite <- Hlen.
    destruct (Z.ltb_spec j offset) as [Hlt|Hge].
    + (* before the offset: the first loop *)
      replace ((offset <=? j) && (j <? offset + Z.of_nat (Z.to_nat (w - offset))))
        with false
        by (destruct (Z.leb_spec offset j); [lia|reflexivity]).
      rewrite H2.
      destruct (Z.leb_spec 0 j); [|lia].
      destruct (Z.ltb_spec j (0 + Z.of_nat (Z.to_nat offset))); [|lia].
      reflexivity.
    + (* from the offset on: the second loop *)
      replace ((offset <=? j) && (j <? offset + Z.of_nat (Z.to_nat (w - offset))))
        with true
        by (destruct (Z.leb_spec offset j); [|lia];
            destruct (Z.ltb_spec j (offset + Z.of_nat (Z.to_nat (w - offset))));
            [reflexivity|lia]).
      assert (Hm2 : m2 j = m1 j).
      { rewrite H2.
        destruct (Z.leb_spec 0 j); [|lia].
        destruct (Z.ltb_spec j (0 + Z.of_nat (Z.to_nat offset))); [lia|].
        reflexivity. }
      rewrite Hm2.
      destruct (Z.ltb_spec j (offset + len)) as [Hin|Hout]; cbn [andb].
      * assert (Hm1 : m1 j = nth (Z.to_nat (j - offset)) (cstr_bytes text) NUL).
        { subst m1. unfold strncpy.
          destruct (Z.leb_spec offset j); [|lia].
          destruct (Z.ltb_spec j (offset + len)); [|lia]. reflexivity. }
        rewrite Hm1. unfold nl_to_sp.
        destruct (Byte.eqb _ NL); reflexivity.
      * reflexivity.
  - apply upd_same.
Qed.

(** For [offset = w] the line is blank. *)
Lemma line_spec_blank (w : Z) (text : list byte) (j : Z) :
  j < w -> line_spec w w text j = SP.
Proof.
  intros Hj. unfold line_spec.
  destruct (Z.ltb_spec j w); [reflexivity|lia].
Qed.

Lemma line_spec_clean (offset w : Z) (text : list byte) (j : Z) :
  line_spec offset w text j <> NUL /\ line_spec offset w text j <> NL.
Proof.
  unfold line_spec.
  destruct (Z.ltb_spec j offset); [split; discriminate|].
  destruct (Z.ltb_spec j (offset + Z.min (strlen text) (w - offset)));
    [|split; discriminate].
  apply nl_to_sp_clean, nth_cstr_bytes_not_NUL.
  unfold strlen in *. lia.
Qed.

(** X19. For a destination of at least [w + 1] bytes, a text
    shorter than 2^31 bytes and [int] arguments with [0 <= w],
    [offset <= w] and [w - offset] representable, the destination holds
    after the call, at each index below [w], the character of the line
    described: a space before [offset], the text's characters with
    newlines turned into spaces for the next [min (strlen text) (w - offset)]
    positions, spaces after that; index [w] holds the terminator, and no
    NUL or newline occurs before it.  For offset 2, width 6 and the text
    "hi", newline, "yo" the bytes are two spaces, "hi", a space, "y" and
    the terminator. *)
Theorem prepare_text_line (buf : mem) (offset w : Z) (text : list byte) :
  (0 <= w <= INT_MAX ->
   INT_MIN <= offset <= w ->
   w - offset <= INT_MAX ->
   strlen text <= INT_MAX ->
   (forall j, 0 <= j < w ->
      sctui_prepare_text buf offset w text j = line_spec offset w text j /\
      sctui_prepare_text buf offset w text j <> NUL /\
      sctui_prepare_text buf offset w text j <> NL) /\
   (forall j, 0 <= j < w -> j < offset ->
      sctui_prepare_text buf offset w text j = SP) /\
   sctui_prepare_text buf offset w text w = NUL /\
   length (read_bytes (sctui_prepare_text buf offset w text) w) = Z.to_nat w) /\
  read_bytes
    (sctui_prepare_text buf 2 6 ["h"; "i"; NL; "y"; "o"]%byte) 7
  = [SP; SP; "h"; "i"; SP; "y"; NUL]%byte.
Proof.
  split; [|reflexivity].
  intros Hw Hoff Hdiff Htl.
  destruct (prepare_text_cells buf offset w text Hw Hoff Hdiff Htl)
    as [Hcells Hterm].
  split; [|split; [|split]].
  - intros j Hj. rewrite (Hcells j Hj).
    split; [reflexivity|]. apply line_spec_clean.
  - intros j Hj Hlt. rewrite (Hcells j Hj). unfold line_spec.
    destruct (Z.ltb_spec j offset); [reflexivity|lia].
  - exact Hterm.
  - apply read_bytes_length.
Qed.

Lemma prepare_text_line_witness :
  0 <= 6 <= INT_MAX /\
  INT_MIN <= 2 <= 6 /\
  6 - 2 <= INT_MAX /\
  strlen ["h"; "i"; NL; "y"; "o"]%byte <= INT_MAX /\
  forall j, 0 <= j < 6 ->
    sctui_prepare_text (fun _ => "x"%byte) 2 6 ["h"; "i"; NL; "y"; "o"]%byte j
    = line_spec 2 6 ["h"; "i"; NL; "y"; "o"]%byte j.
Proof.
  assert (H1 : 0 <= 6 <= INT_MAX) by (unfold INT_MAX; lia).
  assert (H2 : INT_MIN <= 2 <= 6) by (unfold INT_MIN; lia).
  assert (H3 : 6 - 2 <= INT_MAX) by (unfold INT_MAX; lia).
  assert (H4 : strlen ["h"; "i"; NL; "y"; "o"]%byte <= INT_MAX)
    by (vm_compute; discriminate).
  repeat (split; [assumption|]).
  intros j Hj.
  destruct (prepare_text_line (fun _ => "x"%byte) 2 6
              ["h"; "i"; NL; "y"; "o"]%byte) as [Hgen _].
  destruct (Hgen H1 H2 H3 H4) as (Hcells & _).
  exact (proj1 (Hcells j Hj)).
Defined.

(** The call the function makes: [strncpy(&buf[offset], text, len)] with
    the [len] of [prepare_text_len]. *)
Lemma sctui_prepare_text_strncpy
  (buf : mem) (offset w : Z) (text : list byte) :
  sctui_prepare_text buf offset w text
  = let len := prepare_text_len offset w text in
    let buf1 := strncpy buf offset text (to_size_t len) in
    let '(buf2, _) := fill_spaces (Z.to_nat offset) 0 buf1 in
    let '(buf3, i) := blank_rest (Z.to_nat (w - offset)) offset
                        (to_int (offset + len)) buf2 in
    upd buf3 i NUL.
Proof. reflexivity. Qed.

Lemma strncpy_by_stores (m : mem) (dst : Z) (src : list byte) (n j : Z) :
  strncpy m dst src n j
  = match strncpy_store dst src n j with Some b => b | None => m j end.
Proof.
  unfold strncpy, strncpy_store.
  now destruct ((dst <=? j) && (j <? dst + n)).
Qed.

(** With [w < offset] the length is negative: only its upper clamp
    [len > tlen] is there, so [strncpy] gets the count [(size_t)len], which
    is more than any object holds. *)
Lemma prepare_text_len_negative (offset w : Z) (text : list byte) :
  INT_MIN <= w - offset < 0 ->
  strlen text <= INT_MAX ->
  prepare_text_len offset w text = w - offset /\
  to_size_t (prepare_text_len offset w text)
  = w - offset + 18446744073709551616 /\
  PTRDIFF_MAX < to_size_t (prepare_text_len offset w text).
Proof.
  intros Hd Htl. pose proof (strlen_nonneg text) as Hnn.
  assert (Hlen : prepare_text_len offset w text = w - offset).
  { unfold prepare_text_len.
    rewrite (to_int_small (strlen text)) by (unfold INT_MIN, INT_MAX in *; lia).
    rewrite (to_int_small (w - offset)) by (unfold INT_MIN, INT_MAX in *; lia).
    now rewrite gtb_false by lia. }
  assert (Hn : to_size_t (prepare_text_len offset w text)
               = w - offset + 18446744073709551616).
  { rewrite Hlen. unfold to_size_t, INT_MIN in *.
    symmetry. apply (Z.mod_unique (w - offset) 18446744073709551616 (-1)); lia. }
  split; [exact Hlen|]. split; [exact Hn|].
  rewrite Hn. unfold PTRDIFF_MAX, INT_MIN in *. lia.
Qed.

(** C2. With offset 5, width 3 and the text "hi" the line described has
    nothing to copy ([min (strlen text) (w - offset)] is negative) and would
    be three spaces.  The code computes [len = -2] and calls [strncpy] with
    the count [(size_t)-2], more than any object holds: it is asked to
    store "h" at index 5, "i" at index 6 and NUL from index 7 on, all past
    the four bytes of the line. *)
Theorem prepare_text_past_width_count :
  Z.min (strlen ["h"; "i"]%byte) (3 - 5) = -2 /\
  prepare_text_len 5 3 ["h"; "i"]%byte = -2 /\
  to_size_t (prepare_text_len 5 3 ["h"; "i"]%byte) = 18446744073709551614 /\
  PTRDIFF_MAX < to_size_t (prepare_text_len 5 3 ["h"; "i"]%byte) /\
  strncpy_store 5 ["h"; "i"]%byte
    (to_size_t (prepare_text_len 5 3 ["h"; "i"]%byte)) 5 = Some "h"%byte /\
  strncpy_store 5 ["h"; "i"]%byte
    (to_size_t (prepare_text_len 5 3 ["h"; "i"]%byte)) 6 = Some "i"%byte /\
  strncpy_store 5 ["h"; "i"]%byte
    (to_size_t (prepare_text_len 5 3 ["h"; "i"]%byte)) 7 = Some NUL /\
  strncpy_store 5 ["h"; "i"]%byte
    (to_size_t (prepare_text_len 5 3 ["h"; "i"]%byte)) PTRDIFF_MAX = Some NUL.
Proof. repeat split. Qed.

(** C7. With offset 3, width 2 and the text "a" the destination is the
    three bytes at indices 0 to 2.  The code computes [len = -1] and calls
    [strncpy(&buf[3], text, (size_t)-1)]: the call is asked to store "a" at
    index 3 and NUL at every index after it, none of them in the
    destination, with a count no object holds.  With width -1 and offset 0
    the count is the same and the stores start at index 0.  For
    [offset = w] the count is 0. *)
Theorem prepare_text_negative_length_request :
  prepare_text_len 3 2 ["a"%byte] = -1 /\
  to_size_t (prepare_text_len 3 2 ["a"%byte]) = SIZE_MAX /\
  PTRDIFF_MAX < to_size_t (prepare_text_len 3 2 ["a"%byte]) /\
  strncpy_store 3 ["a"%byte] SIZE_MAX 2 = None /\
  strncpy_store 3 ["a"%byte] SIZE_MAX 3 = Some "a"%byte /\
  strncpy_store 3 ["a"%byte] SIZE_MAX 4 = Some NUL /\
  strncpy_store 3 ["a"%byte] SIZE_MAX 1000000 = Some NUL /\
  prepare_text_len 0 (-1) ["a"%byte] = -1 /\
  to_size_t (prepare_text_len 0 (-1) ["a"%byte]) = SIZE_MAX /\
  strncpy_store 0 ["a"%byte] SIZE_MAX 1 = Some NUL /\
  to_size_t (prepare_text_len 2 2 ["a"%byte]) = 0.
Proof. repeat split. Qed.

(** * Further properties *)

(** ** Drawing calls and the stream they produce *)

Section Stream.

Variable P : platform.
Hypothesis HP : platform_ok P.

Lemma buf_append_stream (p : ptr) (text : list byte) (st : world) :
  buf_ok P (heap st p) ->
  strlen text <= BUFSIZ P ->
  exists st',
    _sctui_buf_append P p text st = Ret tt st' /\
    buf_ok P (heap st' p) /\
    cursor_pos st' p = cursor_pos st p /\
    pending st' p = pending st p ++ cstr_bytes text.
Proof.
  intros Hok Hlen.
  destruct (buf_append_held P HP p text st Hok Hlen)
    as (st' & Hrun & Hok' & _ & _ & Hx & Hy & Hcase).
  exists st'. split; [exact Hrun|]. split; [exact Hok'|].
  split; [unfold cursor_pos; now rewrite Hx, Hy|].
  unfold pending, written.
  destruct (buf_used (heap st p) + strlen text >? BUFSIZ P);
    destruct Hcase as (-> & -> & _).
  - rewrite concat_app. cbn. now rewrite app_nil_r, <- app_assoc.
  - now rewrite app_assoc.
Qed.

Lemma sctui_commit_stream (p : ptr) (st : world) :
  buf_ok P (heap st p) ->
  exists st',
    sctui_commit p st = Ret tt st' /\
    buf_ok P (heap st' p) /\
    cursor_pos st' p = cursor_pos st p /\
    held st' p = [] /\
    pending st' p = pending st p.
Proof.
  intros [Hsize Hused].
  destruct (sctui_commit_run p st) as (st' & Hrun & Hout & Hheap & _).
  exists st'. split; [exact Hrun|].
  unfold buf_ok, cursor_pos, pending, written, held. rewrite Hheap, Hout.
  cbn [buf_size buf_used buf cursor_x cursor_y set_buf_used].
  repeat split; try assumption; try lia.
  rewrite concat_app. cbn. now rewrite !app_nil_r.
Qed.

Lemma sctui_cursor_stream (p : ptr) (x y : Z) (st : world) :
  buf_ok P (heap st p) ->
  exists st',
    sctui_cursor P p x y st = Ret tt st' /\
    buf_ok P (heap st' p) /\
    cursor_pos st' p = (x, y) /\
    pending st' p = pending st p ++ move_bytes (cursor_pos st p) x y.
Proof.
  intros Hok. unfold move_bytes, cursor_pos. cbn [fst snd].
  destruct (Z.eqb_spec (cursor_x (heap st p)) x) as [Hx|Hx];
    [destruct (Z.eqb_spec (cursor_y (heap st p)) y) as [Hy|Hy]|]; cbn [andb].
  - exists st. rewrite (sctui_cursor_same P p x y st Hx Hy).
    rewrite app_nil_r, Hx, Hy. split; [reflexivity|]. split; [exact Hok|].
    split; reflexivity.
  - destruct (sctui_cursor_moved P HP p x y st Hok) as
      (st' & Hrun & Hok' & Hx' & Hy' & Hcase); [tauto|].
    exists st'. rewrite Hx', Hy'. repeat split; try assumption; try apply Hok'.
    unfold pending, written.
    destruct (buf_used (heap st p) + strlen (sprintf_cursor y x) >? BUFSIZ P);
      destruct Hcase as (-> & -> & _).
    + rewrite concat_app. cbn. now rewrite app_nil_r, <- app_assoc.
    + now rewrite app_assoc.
  - destruct (sctui_cursor_moved P HP p x y st Hok) as
      (st' & Hrun & Hok' & Hx' & Hy' & Hcase); [tauto|].
    exists st'. rewrite Hx', Hy'. repeat split; try assumption; try apply Hok'.
    unfold pending, written.
    destruct (buf_used (heap st p) + strlen (sprintf_cursor y x) >? BUFSIZ P);
      destruct Hcase as (-> & -> & _).
    + rewrite concat_app. cbn. now rewrite app_nil_r, <- app_assoc.
    + now rewrite app_assoc.
Qed.

Lemma sctui_text_stream (p : ptr) (x y : Z) (text : list byte) (st : world) :
  buf_ok P (heap st p) ->
  strlen text <= BUFSIZ P ->
  exists st',
    sctui_text P p x y text st = Ret tt st' /\
    buf_ok P (heap st' p) /\
    cursor_pos st' p = cursor_pos st p /\
    pending st' p
    = pending st p
      ++ move_bytes (cursor_pos st p) x y ++ cstr_bytes text
      ++ move_bytes (x, y) (cursor_x (heap st p)) (cursor_y (heap st p)).
Proof.
  intros Hok Hlen.
  destruct (sctui_cursor_stream p x y st Hok) as (st1 & Hr1 & Hok1 & Hc1 & Hp1).
  destruct (buf_append_stream p text st1 Hok1 Hlen)
    as (st2 & Hr2 & Hok2 & Hc2 & Hp2).
  destruct (sctui_cursor_stream p (cursor_x (heap st p)) (cursor_y (heap st p))
              st2 Hok2) as (st3 & Hr3 & Hok3 & Hc3 & Hp3).
  exists st3. split.
  - unfold sctui_text, bind at 1, deref. unfold bind. now rewrite Hr1, Hr2.
  - split; [exact Hok3|]. split; [exact Hc3|].
    rewrite Hp3, Hp2, Hp1, Hc2, Hc1, <- !app_assoc. reflexivity.
Qed.

End Stream.

Lemma run_call_stream (P : platform) (p : ptr) (c : draw_call) (st : world) :
  platform_ok P ->
  buf_ok P (heap st p) ->
  call_fits P c ->
  exists st',
    run_call P p c st = Ret tt st' /\
    buf_ok P (heap st' p) /\
    cursor_pos st' p = snd (direct_call (cursor_pos st p) c) /\
    pending st' p = pending st p ++ fst (direct_call (cursor_pos st p) c).
Proof.
  intros HP Hok Hfit. destruct c as [x y| | |x y text|]; cbn [run_call direct_call fst snd].
  - apply sctui_cursor_stream; assumption.
  - unfold sctui_hide_cursor.
    apply (buf_append_stream P HP p ESC_HIDE_CURSOR st Hok).
    unfold platform_ok in HP. change (strlen ESC_HIDE_CURSOR) with 6. lia.
  - unfold sctui_show_cursor.
    apply (buf_append_stream P HP p ESC_SHOW_CURSOR st Hok).
    unfold platform_ok in HP. change (strlen ESC_SHOW_CURSOR) with 6. lia.
  - apply sctui_text_stream; assumption.
  - destruct (sctui_commit_stream P p st Hok) as (st' & Hrun & Hok' & Hc & _ & Hp).
    exists st'. rewrite app_nil_r. now repeat split; try apply Hok'.
Qed.

Lemma run_calls_stream (P : platform) (p : ptr) (cs : list draw_call) :
  platform_ok P ->
  Forall (call_fits P) cs ->
  forall st, buf_ok P (heap st p) ->
  exists st',
    run_calls P p cs st = Ret tt st' /\
    buf_ok P (heap st' p) /\
    cursor_pos st' p = snd (direct_calls (cursor_pos st p) cs) /\
    pending st' p = pending st p ++ fst (direct_calls (cursor_pos st p) cs).
Proof.
  intros HP. induction 1 as [|c cs Hc _ IH]; intros st Hok.
  - exists st. cbn. rewrite app_nil_r. now repeat split; try apply Hok.
  - destruct (run_call_stream P p c st HP Hok Hc) as (st1 & Hr1 & Hok1 & Hc1 & Hp1).
    destruct (IH st1 Hok1) as (st' & Hr & Hok' & Hc' & Hp').
    exists st'. cbn [run_calls direct_calls]. unfold bind. rewrite Hr1.
    destruct (direct_call (cursor_pos st p) c) as [b pos1].
    cbn [fst snd] in Hc1, Hp1. rewrite Hc1 in Hc', Hp'.
    destruct (direct_calls pos1 cs) as [bs pos2].
    cbn [fst snd] in *. rewrite Hp', Hp1, <- app_assoc.
    now repeat split; try apply Hok'.
Qed.

(** X1. Buffering is transparent.  A program of drawing calls (cursor
    moves, hiding and showing the cursor, texts no longer than [BUFSIZ],
    commits), run on a draw buffer within its capacity, returns with the
    buffer within its capacity, and the bytes written plus the bytes held
    grow by exactly the bytes the same calls would send without a buffer;
    the recorded cursor position is the one an unbuffered run ends with.
    After a final commit all of these bytes have been written and none is
    held. *)
Theorem draw_calls_as_unbuffered
  (P : platform) (p : ptr) (cs : list draw_call) (st : world) :
  platform_ok P ->
  Forall (call_fits P) cs ->
  buf_ok P (heap st p) ->
  (exists st',
     run_calls P p cs st = Ret tt st' /\
     buf_ok P (heap st' p) /\
     cursor_pos st' p = snd (direct_calls (cursor_pos st p) cs) /\
     written st' ++ held st' p
     = written st ++ held st p ++ fst (direct_calls (cursor_pos st p) cs)) /\
  (exists st'',
     (run_calls P p cs ;; sctui_commit p) st = Ret tt st'' /\
     held st'' p = [] /\
     written st''
     = written st ++ held st p ++ fst (direct_calls (cursor_pos st p) cs)).
Proof.
  intros HP Hfit Hok.
  destruct (run_calls_stream P p cs HP Hfit st Hok)
    as (st' & Hrun & Hok' & Hc & Hp).
  unfold pending in Hp. rewrite <- app_assoc in Hp.
  split.
  - exists st'. now repeat split; try apply Hok'.
  - destruct (sctui_commit_stream P p st' Hok') as (st'' & Hr2 & _ & _ & Hh & Hp2).
    exists st''. unfold bind. rewrite Hrun. split; [exact Hr2|].
    split; [exact Hh|].
    unfold pending in Hp2. rewrite Hh, app_nil_r in Hp2. now rewrite Hp2.
Qed.

Lemma draw_calls_as_unbuffered_witness :
  platform_ok linux_glibc /\
  Forall (call_fits linux_glibc)
    [CallHideCursor; CallText 3 2 ["h"; "i"]%byte; CallCursor 1 1; CallCommit] /\
  buf_ok linux_glibc (heap session1 1) /\
  exists st'',
    (run_calls linux_glibc 1
       [CallHideCursor; CallText 3 2 ["h"; "i"]%byte; CallCursor 1 1; CallCommit] ;;
     sctui_commit 1) session1 = Ret tt st'' /\
    held st'' 1 = [] /\
    written st''
    = written session1 ++ held session1 1
      ++ fst (direct_calls (cursor_pos session1 1)
                [CallHideCursor; CallText 3 2 ["h"; "i"]%byte; CallCursor 1 1;
                 CallCommit]).
Proof.
  assert (Hfit : Forall (call_fits linux_glibc)
            [CallHideCursor; CallText 3 2 ["h"; "i"]%byte; CallCursor 1 1;
             CallCommit]).
  { repeat constructor. vm_compute. discriminate. }
  split; [exact platform_ok_linux|]. split; [exact Hfit|].
  split; [exact buf_ok_session1|].
  exact (proj2 (draw_calls_as_unbuffered linux_glibc 1 _ session1
                  platform_ok_linux Hfit buf_ok_session1)).
Defined.

(** X2. [sctui_text] draws at [(x, y)] and comes back: it returns with the
    recorded cursor position it found, having added, in this order, the
    move to [(x, y)] unless that is the recorded position, the bytes of
    the text, and the move back unless nothing moved.  The recorded
    position takes no account of the text drawn. *)
Theorem text_returns_to_position
  (P : platform) (p : ptr) (x y : Z) (text : list byte) (st : world) :
  platform_ok P ->
  buf_ok P (heap st p) ->
  strlen text <= BUFSIZ P ->
  exists st',
    sctui_text P p x y text st = Ret tt st' /\
    buf_ok P (heap st' p) /\
    cursor_x (heap st' p) = cursor_x (heap st p) /\
    cursor_y (heap st' p) = cursor_y (heap st p) /\
    written st' ++ held st' p
    = written st ++ held st p
      ++ (if (cursor_x (heap st p) =? x) && (cursor_y (heap st p) =? y)
          then cstr_bytes text
          else sprintf_cursor y x ++ cstr_bytes text
               ++ sprintf_cursor (cursor_y (heap st p)) (cursor_x (heap st p))).
Proof.
  intros HP Hok Hlen.
  destruct (sctui_text_stream P HP p x y text st Hok Hlen)
    as (st' & Hrun & Hok' & Hc & Hp).
  exists st'. split; [exact Hrun|]. split; [exact Hok'|].
  unfold cursor_pos in Hc. injection Hc as Hx Hy.
  split; [exact Hx|]. split; [exact Hy|].
  unfold pending in Hp. rewrite <- app_assoc in Hp. rewrite Hp.
  unfold move_bytes, cursor_pos. cbn [fst snd].
  destruct (Z.eqb_spec (cursor_x (heap st p)) x) as [Ex|Ex];
    [destruct (Z.eqb_spec (cursor_y (heap st p)) y) as [Ey|Ey]|]; cbn [andb].
  - subst x y. rewrite !Z.eqb_refl. cbn [andb app]. now rewrite app_nil_r.
  - replace ((x =? cursor_x (heap st p)) && (y =? cursor_y (heap st p)))
      with false; [reflexivity|].
    symmetry. apply andb_false_iff. right. apply Z.eqb_neq. congruence.
  - replace ((x =? cursor_x (heap st p)) && (y =? cursor_y (heap st p)))
      with false; [reflexivity|].
    symmetry. apply andb_false_iff. left. apply Z.eqb_neq. congruence.
Qed.

Lemma text_returns_to_position_witness :
  platform_ok linux_glibc /\
  buf_ok linux_glibc (heap session1 1) /\
  strlen ["h"; "i"]%byte <= BUFSIZ linux_glibc /\
  exists st',
    sctui_text linux_glibc 1 3 2 ["h"; "i"]%byte session1 = Ret tt st' /\
    cursor_x (heap st' 1) = cursor_x (heap session1 1) /\
    cursor_y (heap st' 1) = cursor_y (heap session1 1).
Proof.
  assert (Hlen : strlen ["h"; "i"]%byte <= BUFSIZ linux_glibc)
    by (vm_compute; discriminate).
  split; [exact platform_ok_linux|]. split; [exact buf_ok_session1|].
  split; [exact Hlen|].
  destruct (text_returns_to_position linux_glibc 1 3 2 ["h"; "i"]%byte session1
              platform_ok_linux buf_ok_session1 Hlen)
    as (st' & Hrun & _ & Hx & Hy & _).
  exists st'. now repeat split.
Defined.

(** ** Forward runs through the monad *)

Lemma ends_bind {A B : Type} (c : M A) (k : A -> M B) (st : world)
  (Q : outcome B -> Prop) :
  ends c st (fun o => match o with
                      | Ret a st1 => ends (k a) st1 Q
                      | Exit n s => Q (Exit n s)
                      | Abort s => Q (Abort s)
                      end) ->
  ends (bind c k) st Q.
Proof. unfold ends, bind. destruct (c st); auto. Qed.

Lemma ends_pure {A : Type} (c : M A) (st st1 : world) (a : A)
  (Q : outcome A -> Prop) :
  c st = Ret a st1 -> Q (Ret a st1) -> ends c st Q.
Proof. unfold ends. now intros ->. Qed.

(** An assignment to [*p], with the new heap known only by what it holds
    at [p] and elsewhere. *)
Lemma ends_assign (p : ptr) (f : sctui -> sctui) (st : world)
  (Q : outcome unit -> Prop) :
  (forall H' : ptr -> sctui,
     H' p = f (heap st p) ->
     (forall q, q <> p -> H' q = heap st q) ->
     Q (Ret tt (set_heap st H'))) ->
  ends (assign p f) st Q.
Proof.
  intros HQ. unfold ends, assign. apply HQ.
  - now rewrite Z.eqb_refl.
  - intros q Hq. apply Z.eqb_neq in Hq. now rewrite Hq.
Qed.

Ltac fwd_pure :=
  apply ends_bind; eapply ends_pure; [reflexivity|]; cbv beta iota.

Tactic Notation "norm_world_in" hyp(H) :=
  cbn [heap global_sctui tty out err input ioctl_ret ioctl_ws next_alloc
       set_heap set_global_sctui set_tty set_out set_err set_input] in H.

Ltac norm_world :=
  cbn [heap global_sctui tty out err input ioctl_ret ioctl_ws next_alloc
       set_heap set_global_sctui set_tty set_out set_err set_input].

Tactic Notation "norm_struct_in" hyp(H) :=
  cbn [cur orig cursor_x cursor_y w h buf buf_size buf_used
       set_cur set_orig set_cursor_x set_cursor_y set_w set_h set_buf
       set_buf_size set_buf_used
       c_iflag c_oflag c_cflag c_lflag c_cc
       set_c_iflag set_c_oflag set_c_cflag set_c_lflag set_c_cc] in H.

(** One assignment to [*p] inside a run: the struct at [p] is kept in
    explicit form, the other structs are those of the start. *)
Ltac fwd_assign_with p tac :=
  tac; apply ends_assign;
  let H' := fresh "hp" in
  let Hat := fresh "Hat" in
  let Hfr := fresh "Hfr" in
  intros H' Hat Hfr;
  cbn [heap global_sctui tty out err input ioctl_ret ioctl_ws next_alloc
       set_heap set_global_sctui set_tty set_out set_err set_input]
    in Hat, Hfr;
  try match goal with
      | Hprev : ?G p = _ |- _ =>
          lazymatch type of Hat with
          | _ = ?rhs =>
              lazymatch rhs with
              | context [G p] => rewrite Hprev in Hat; clear Hprev
              end
          end
      end;
  cbn [cur orig cursor_x cursor_y w h buf buf_size buf_used
       set_cur set_orig set_cursor_x set_cursor_y set_w set_h set_buf
       set_buf_size set_buf_used
       c_iflag c_oflag c_cflag c_lflag c_cc
       set_c_iflag set_c_oflag set_c_cflag set_c_lflag set_c_cc] in Hat;
  try match goal with
      | Hfprev : forall q, q <> p -> ?G q = _ |- _ =>
          lazymatch type of Hfr with
          | forall q, q <> p -> _ = G q =>
              let Hn := fresh "Hfr" in
              assert (Hn : forall q, q <> p -> H' q = heap _ q)
                by (let q := fresh "q" in
                    let Hq := fresh "Hq" in
                    intros q Hq; etransitivity;
                    [apply Hfr; exact Hq|apply Hfprev; exact Hq]);
              clear Hfr Hfprev
          end
      end;
  cbv beta iota.

Ltac fwd_assign p := fwd_assign_with p ltac:(apply ends_bind).
Ltac fwd_assign_last p := fwd_assign_with p ltac:(idtac).


Ltac close_facts p :=
  norm_world;
  repeat match goal with
         | Hat : ?G p = _ |- context [?G p] => rewrite Hat
         end;
  cbn [cur orig cursor_x cursor_y w h buf buf_size buf_used
       set_cur set_orig set_cursor_x set_cursor_y set_w set_h set_buf
       set_buf_size set_buf_used fst snd];
  try reflexivity; try assumption.

Section InitRun.

Variable P : platform.

Lemma sctui_init_outcome (p : ptr) (st : world) :
  global_sctui st = NULL ->
  ends (sctui_init P p) st (fun o =>
    if (ioctl_ret st =? -1) || (fst (ioctl_ws st) =? 0)
    then
      if p =? NULL
      then exists st',
             o = Abort st' /\ init_touched P p st st' /\
             out st' = out st ++ [ESC_OPEN_ALT_SCREEN] /\
             err st' = err st /\
             tty st' = raw_termios P (tty st)
      else exists st',
             o = Exit 1 st' /\ init_touched P p st st' /\
             out st' = out st ++ [ESC_OPEN_ALT_SCREEN; ESC_CLOSE_ALT_SCREEN] /\
             err st' = err st ++ msg_winsize /\
             tty st' = tty st
    else
      match next_alloc st with
      | None =>
          exists st',
            o = Exit 1 st' /\ init_touched P p st st' /\
            init_window p st st' /\
            out st' = out st ++ [ESC_OPEN_ALT_SCREEN] /\
            err st' = err st ++ msg_calloc
      | Some m =>
          exists st',
            o = Ret tt st' /\ init_touched P p st st' /\
            init_window p st st' /\
            out st' = out st ++ [ESC_OPEN_ALT_SCREEN; ESC_CLEAR_SCREEN] /\
            err st' = err st /\
            buf_size (heap st' p) = BUFSIZ P /\
            buf_used (heap st' p) = 0 /\
            (forall j, 0 <= j < BUFSIZ P -> buf (heap st' p) j = NUL) /\
            (forall j, j < 0 \/ BUFSIZ P <= j -> buf (heap st' p) j = m j)
      end).
Proof.
  intros Hnull. unfold sctui_init, init_touched, init_window.
  fwd_pure. rewrite Hnull. cbn [negb Z.eqb NULL].
  fwd_pure.
  fwd_pure.
  fwd_assign p.
  fwd_pure.
  do 7 fwd_assign p.
  fwd_pure. norm_world. rewrite Hat0.
  cbn [cur orig set_cur set_orig].
  fwd_pure. fwd_pure.
  apply ends_bind. unfold sctui_get_win.
  fwd_pure. norm_world.
  destruct (ioctl_ws st) as [ws_col ws_row]. cbv beta iota. cbn [fst snd].
  destruct ((ioctl_ret st =? -1) || (ws_col =? 0)) eqn:Ec.
  - apply ends_bind. cbv beta iota. apply ends_bind. unfold sctui_fini.
    fwd_pure. norm_world.
    destruct (p =? NULL) eqn:Ep; cbn [negb].
    + unfold ends, bind, assert.
      eexists. split; [reflexivity|].
      repeat split; close_facts p.
    + fwd_pure. fwd_pure. fwd_pure. norm_world. rewrite Hat0.
      cbn [orig set_cur set_orig].
      eapply ends_pure; [reflexivity|]. cbv beta iota.
      unfold _sctui_die. fwd_pure.
      unfold ends, exit.
      eexists. split; [reflexivity|].
      repeat split; close_facts p.
      norm_world. now rewrite <- app_assoc.
  - apply ends_bind. cbv beta iota.
    eapply ends_pure; [reflexivity|]. cbv beta iota.
    apply Bool.orb_false_iff in Ec. destruct Ec as [_ Ecol]. rewrite Ecol.
    cbn [negb].
    fwd_assign p. fwd_assign_last p.
    fwd_assign p. fwd_assign p.
    apply ends_bind. unfold _sctui_ecalloc.
    fwd_pure. norm_world.
    destruct (next_alloc st) as [m|].
    + eapply ends_pure; [reflexivity|]. cbv beta iota.
      do 3 fwd_assign p.
      eapply ends_pure; [reflexivity|].
      eexists. split; [reflexivity|].
      repeat split; close_facts p.
      * destruct (ws_row =? 0); reflexivity.
      * norm_world. now rewrite <- app_assoc.
      * intros j Hj. close_facts p.
        destruct (Z.leb_spec 0 j); [|lia].
        destruct (Z.ltb_spec j (BUFSIZ P * 1)); [reflexivity|lia].
      * intros j Hj. close_facts p.
        destruct (Z.leb_spec 0 j); destruct (Z.ltb_spec j (BUFSIZ P * 1));
          cbn [andb]; try reflexivity; lia.
    + unfold _sctui_die. fwd_pure.
      unfold ends, exit.
      eexists. split; [reflexivity|].
      repeat split; close_facts p.
      destruct (ws_row =? 0); reflexivity.
Qed.
End InitRun.

(** ** Setting up and leaving a session *)

Lemma sctui_init_success (P : platform) (p : ptr) (st : world) (m : mem) :
  global_sctui st = NULL ->
  ioctl_ret st <> -1 ->
  fst (ioctl_ws st) <> 0 ->
  next_alloc st = Some m ->
  exists st',
    sctui_init P p st = Ret tt st' /\
    init_touched P p st st' /\
    init_window p st st' /\
    out st' = out st ++ [ESC_OPEN_ALT_SCREEN; ESC_CLEAR_SCREEN] /\
    err st' = err st /\
    buf_size (heap st' p) = BUFSIZ P /\
    buf_used (heap st' p) = 0 /\
    (forall j, 0 <= j < BUFSIZ P -> buf (heap st' p) j = NUL) /\
    (forall j, j < 0 \/ BUFSIZ P <= j -> buf (heap st' p) j = m j).
Proof.
  intros Hnull Hret Hcol Hmem.
  pose proof (sctui_init_outcome P p st Hnull) as H. unfold ends in H.
  apply Z.eqb_neq in Hret, Hcol. rewrite Hret, Hcol, Hmem in H. cbn [orb] in H.
  destruct H as (st' & Hrun & H). exists st'. now split.
Qed.

(** X3. Without a session in place, with a window-size query that
    succeeds with a column count other than zero and with memory for the
    buffer, [sctui_init] returns.  It has saved the terminal attributes it
    found in [orig], made the session the global one, entered the alternate
    screen and then cleared it (two writes), stored the reported size (24
    rows when none are reported), recorded the cursor at (1,1), and set up
    an empty draw buffer of [BUFSIZ] zero bytes; no other [struct sctui] is
    touched and nothing is printed on [stderr]. *)
Theorem init_sets_up_session (P : platform) (p : ptr) (st : world) (m : mem) :
  global_sctui st = NULL ->
  ioctl_ret st <> -1 ->
  fst (ioctl_ws st) <> 0 ->
  next_alloc st = Some m ->
  exists st',
    sctui_init P p st = Ret tt st' /\
    global_sctui st' = p /\
    orig (heap st' p) = tty st /\
    tty st' = cur (heap st' p) /\
    out st' = out st ++ [ESC_OPEN_ALT_SCREEN; ESC_CLEAR_SCREEN] /\
    err st' = err st /\
    w (heap st' p) = fst (ioctl_ws st) /\
    h (heap st' p)
    = (if snd (ioctl_ws st) =? 0 then 24 else snd (ioctl_ws st)) /\
    cursor_x (heap st' p) = 1 /\ cursor_y (heap st' p) = 1 /\
    buf_size (heap st' p) = BUFSIZ P /\
    buf_used (heap st' p) = 0 /\
    held st' p = [] /\
    (forall j, 0 <= j < BUFSIZ P -> buf (heap st' p) j = NUL) /\
    (forall q, q <> p -> heap st' q = heap st q).
Proof.
  intros Hnull Hret Hcol Hmem.
  destruct (sctui_init_success P p st m Hnull Hret Hcol Hmem)
    as (st' & Hrun & (Hg & Ho & _ & Hfr & _) & (Ht & Hw & Hh & Hx & Hy)
        & Hout & Herr & Hsize & Hused & Hzero & _).
  exists st'. unfold held. rewrite Hused.
  repeat split; assumption.
Qed.

Lemma init_sets_up_session_witness :
  global_sctui world0 = NULL /\
  ioctl_ret world0 <> -1 /\
  fst (ioctl_ws world0) <> 0 /\
  next_alloc world0 = Some (fun _ => "x"%byte) /\
  exists st',
    sctui_init linux_glibc 1 world0 = Ret tt st' /\
    global_sctui st' = 1 /\
    out st' = out world0 ++ [ESC_OPEN_ALT_SCREEN; ESC_CLEAR_SCREEN] /\
    w (heap st' 1) = 100 /\ h (heap st' 1) = 30.
Proof.
  assert (H1 : global_sctui world0 = NULL) by reflexivity.
  assert (H2 : ioctl_ret world0 <> -1) by (cbn; discriminate).
  assert (H3 : fst (ioctl_ws world0) <> 0) by (cbn; discriminate).
  assert (H4 : next_alloc world0 = Some (fun _ => "x"%byte)) by reflexivity.
  repeat (split; [assumption|]).
  destruct (init_sets_up_session linux_glibc 1 world0 _ H1 H2 H3 H4)
    as (st' & Hrun & Hg & _ & _ & Hout & _ & Hw & Hh & _).
  exists st'. now repeat split.
Defined.

(** The bits of the attributes [sctui_init] derives. *)
Lemma raw_termios_bits (P : platform) (t : termios) (n : Z) :
  0 <= n ->
  Z.testbit (c_iflag (raw_termios P t)) n
  = Z.testbit (c_iflag t) n
    && negb (Z.testbit (IXON P) n || Z.testbit (ICRNL P) n) /\
  Z.testbit (c_oflag (raw_termios P t)) n
  = Z.testbit (c_oflag t) n && negb (Z.testbit (OPOST P) n) /\
  Z.testbit (c_cflag (raw_termios P t)) n
  = Z.testbit (c_cflag t) n || Z.testbit (CS8 P) n /\
  Z.testbit (c_lflag (raw_termios P t)) n
  = Z.testbit (c_lflag t) n
    && negb (Z.testbit (ECHO P) n || Z.testbit (ICANON P) n
             || Z.testbit (ISIG P) n).
Proof.
  intros Hn. unfold raw_termios. cbn [c_iflag c_oflag c_cflag c_lflag].
  rewrite !Z.land_spec, !Z.lnot_spec, !Z.lor_spec by exact Hn.
  now repeat split.
Qed.

(** X4. Raw mode.  The attributes in force when [sctui_init] returns differ
    from those it found exactly as follows: in [c_lflag] the bits of
    [ECHO], [ICANON] and [ISIG] are off, in [c_oflag] those of [OPOST], in
    [c_iflag] those of [IXON] and [ICRNL]; in [c_cflag] the bits of [CS8]
    are on; every other flag bit is as found.  [c_cc[VTIME]] is 1,
    [c_cc[VMIN]] is 0 (provided the two indices differ), and the other
    control characters are as found. *)
Theorem init_raw_mode (P : platform) (p : ptr) (st st' : world) :
  sctui_init P p st = Ret tt st' ->
  (forall n, 0 <= n ->
     Z.testbit (c_lflag (tty st')) n
     = Z.testbit (c_lflag (tty st)) n
       && negb (Z.testbit (ECHO P) n || Z.testbit (ICANON P) n
                || Z.testbit (ISIG P) n) /\
     Z.testbit (c_oflag (tty st')) n
     = Z.testbit (c_oflag (tty st)) n && negb (Z.testbit (OPOST P) n) /\
     Z.testbit (c_iflag (tty st')) n
     = Z.testbit (c_iflag (tty st)) n
       && negb (Z.testbit (IXON P) n || Z.testbit (ICRNL P) n) /\
     Z.testbit (c_cflag (tty st')) n
     = Z.testbit (c_cflag (tty st)) n || Z.testbit (CS8 P) n) /\
  c_cc (tty st') (VTIME P) = 1 /\
  (VMIN P <> VTIME P -> c_cc (tty st') (VMIN P) = 0) /\
  (forall j, j <> VMIN P -> j <> VTIME P ->
     c_cc (tty st') j = c_cc (tty st) j).
Proof.
  intros Hrun.
  destruct (sctui_init_returns P p st st' Hrun) as (Hnull & _).
  pose proof (sctui_init_outcome P p st Hnull) as H. unfold ends in H.
  rewrite Hrun in H.
  assert (Htty : tty st' = raw_termios P (tty st)).
  { destruct ((ioctl_ret st =? -1) || (fst (ioctl_ws st) =? 0)).
    - destruct (p =? NULL); destruct H as (s & Heq & _); discriminate Heq.
    - destruct (next_alloc st); destruct H as (s & Heq & Ht & Hw & _);
        [|discriminate Heq].
      injection Heq as <-.
      destruct Ht as (_ & _ & Hcur & _). destruct Hw as (Htty & _).
      now rewrite Htty, Hcur. }
  rewrite Htty. split; [|split; [|split]].
  - intros n Hn. destruct (raw_termios_bits P (tty st) n Hn) as (Hi & Ho & Hc & Hl).
    now repeat split.
  - cbn. now rewrite Z.eqb_refl.
  - intros Hne. cbn. apply Z.eqb_neq in Hne. now rewrite Hne, Z.eqb_refl.
  - intros j Hmin Htime. cbn. apply Z.eqb_neq in Hmin, Htime.
    now rewrite Hmin, Htime.
Qed.

Lemma init_raw_mode_witness :
  sctui_init linux_glibc 1 world0 = Ret tt session1 /\
  c_cc (tty session1) (VTIME linux_glibc) = 1 /\
  c_cc (tty session1) (VMIN linux_glibc) = 0 /\
  Z.testbit (c_lflag (tty session1)) 3 = false.
Proof.
  split; [exact init_session1|].
  destruct (init_raw_mode linux_glibc 1 world0 session1 init_session1)
    as (Hbits & Htime & Hmin & _).
  split; [exact Htime|]. split; [apply Hmin; cbn; discriminate|].
  destruct (Hbits 3) as (Hl & _); [lia|]. rewrite Hl. reflexivity.
Defined.

(** X5. When the window-size query fails, or reports zero columns, inside
    [sctui_init] (no session in place before, a pointer other than
    [NULL]), the process exits with status 1 and the terminal is as
    [sctui_init] found it: the attributes in force are the original ones
    again and the alternate screen has been entered and left.  The
    message is on [stderr]; no buffer was allocated or screen cleared. *)
Theorem init_window_failure_restores (P : platform) (p : ptr) (st : world) :
  global_sctui st = NULL ->
  p <> NULL ->
  ioctl_ret st = -1 \/ fst (ioctl_ws st) = 0 ->
  exists st',
    sctui_init P p st = Exit 1 st' /\
    tty st' = tty st /\
    out st' = out st ++ [ESC_OPEN_ALT_SCREEN; ESC_CLOSE_ALT_SCREEN] /\
    err st' = err st ++ msg_winsize /\
    global_sctui st' = p /\
    (forall q, q <> p -> heap st' q = heap st q).
Proof.
  intros Hnull Hp Hfail.
  pose proof (sctui_init_outcome P p st Hnull) as H. unfold ends in H.
  assert (Hc : (ioctl_ret st =? -1) || (fst (ioctl_ws st) =? 0) = true).
  { apply orb_true_iff. destruct Hfail as [E|E]; [left|right];
      now apply Z.eqb_eq. }
  apply Z.eqb_neq in Hp. rewrite Hc, Hp in H.
  destruct H as (st' & Hrun & (Hg & _ & _ & Hfr & _) & Hout & Herr & Htty).
  exists st'. now repeat split.
Qed.

Lemma init_window_failure_restores_witness :
  global_sctui world0_no_window = NULL /\
  1 <> NULL /\
  (ioctl_ret world0_no_window = -1 \/ fst (ioctl_ws world0_no_window) = 0) /\
  exists st',
    sctui_init linux_glibc 1 world0_no_window = Exit 1 st' /\
    tty st' = tty world0_no_window /\
    out st' = out world0_no_window
              ++ [ESC_OPEN_ALT_SCREEN; ESC_CLOSE_ALT_SCREEN].
Proof.
  assert (H1 : global_sctui world0_no_window = NULL) by reflexivity.
  assert (H2 : 1 <> NULL) by discriminate.
  assert (H3 : ioctl_ret world0_no_window = -1 \/
               fst (ioctl_ws world0_no_window) = 0) by (left; reflexivity).
  repeat (split; [assumption|]).
  destruct (init_window_failure_restores linux_glibc 1 world0_no_window H1 H2 H3)
    as (st' & Hrun & Htty & Hout & _).
  exists st'. now repeat split.
Defined.

(** X6. When [calloc] fails inside [sctui_init] (no session in place
    before, the window size known), the process exits with status 1 on
    the message "failed to calloc" with the terminal not restored: the raw
    attributes are in force, the alternate screen has been entered and not
    left, and the original attributes are only in [orig] of the session,
    which is the global one. *)
Theorem init_calloc_failure_leaves_raw (P : platform) (p : ptr) (st : world) :
  global_sctui st = NULL ->
  ioctl_ret st <> -1 ->
  fst (ioctl_ws st) <> 0 ->
  next_alloc st = None ->
  exists st',
    sctui_init P p st = Exit 1 st' /\
    tty st' = raw_termios P (tty st) /\
    c_cc (tty st') (VTIME P) = 1 /\
    orig (heap st' p) = tty st /\
    global_sctui st' = p /\
    out st' = out st ++ [ESC_OPEN_ALT_SCREEN] /\
    err st' = err st ++ msg_calloc.
Proof.
  intros Hnull Hret Hcol Hmem.
  pose proof (sctui_init_outcome P p st Hnull) as H. unfold ends in H.
  apply Z.eqb_neq in Hret, Hcol. rewrite Hret, Hcol, Hmem in H. cbn [orb] in H.
  destruct H as (st' & Hrun & (Hg & Ho & Hcur & _) & (Htty & _) & Hout & Herr).
  exists st'. rewrite Htty, Hcur.
  repeat split; try assumption.
  cbn. now rewrite Z.eqb_refl.
Qed.

Lemma init_calloc_failure_leaves_raw_witness :
  global_sctui world0_no_memory = NULL /\
  ioctl_ret world0_no_memory <> -1 /\
  fst (ioctl_ws world0_no_memory) <> 0 /\
  next_alloc world0_no_memory = None /\
  exists st',
    sctui_init linux_glibc 1 world0_no_memory = Exit 1 st' /\
    c_cc (tty st') (VTIME linux_glibc) = 1 /\
    out st' = out world0_no_memory ++ [ESC_OPEN_ALT_SCREEN].
Proof.
  assert (H1 : global_sctui world0_no_memory = NULL) by reflexivity.
  assert (H2 : ioctl_ret world0_no_memory <> -1) by (cbn; discriminate).
  assert (H3 : fst (ioctl_ws world0_no_memory) <> 0) by (cbn; discriminate).
  assert (H4 : next_alloc world0_no_memory = None) by reflexivity.
  repeat (split; [assumption|]).
  destruct (init_calloc_failure_leaves_raw linux_glibc 1 world0_no_memory
              H1 H2 H3 H4) as (st' & Hrun & _ & Hcc & _ & _ & Hout & _).
  exists st'. now repeat split.
Defined.

(** [sctui_fini] with a session in place. *)
Lemma sctui_fini_run (st : world) :
  global_sctui st <> NULL ->
  sctui_fini st
  = Ret tt (set_tty (set_out st (out st ++ [ESC_CLOSE_ALT_SCREEN]))
                    (orig (heap st (global_sctui st)))).
Proof.
  intros Hg. unfold sctui_fini, bind, get_global_sctui, assert.
  apply Z.eqb_neq in Hg. now rewrite Hg.
Qed.

(** X7. Round trip of a session.  [sctui_init] followed by [sctui_fini]
    returns with the terminal attributes that were in force before, after
    three writes: entering the alternate screen, clearing it, leaving it.
    [sctui_fini] does not reset [global_sctui], so any later [sctui_init]
    exits with status 1 and changes nothing but [stderr]. *)
Theorem init_fini_round_trip (P : platform) (p : ptr) (st : world) (m : mem) :
  global_sctui st = NULL ->
  p <> NULL ->
  ioctl_ret st <> -1 ->
  fst (ioctl_ws st) <> 0 ->
  next_alloc st = Some m ->
  exists st2,
    (sctui_init P p ;; sctui_fini) st = Ret tt st2 /\
    tty st2 = tty st /\
    out st2 = out st ++ [ESC_OPEN_ALT_SCREEN; ESC_CLEAR_SCREEN;
                         ESC_CLOSE_ALT_SCREEN] /\
    global_sctui st2 = p /\
    forall q, exists st3,
      sctui_init P q st2 = Exit 1 st3 /\
      tty st3 = tty st2 /\ out st3 = out st2 /\ heap st3 = heap st2.
Proof.
  intros Hnull Hp Hret Hcol Hmem.
  destruct (sctui_init_success P p st m Hnull Hret Hcol Hmem)
    as (st1 & Hrun & (Hg & Ho & _) & _ & Hout & _).
  assert (Hg1 : global_sctui st1 <> NULL) by congruence.
  eexists. split.
  - unfold bind. rewrite Hrun. now apply sctui_fini_run.
  - cbn [tty out global_sctui set_tty set_out].
    rewrite Hg, Ho, Hout, <- app_assoc.
    repeat split.
    intros q. eexists. split.
    + unfold sctui_init, bind at 1, get_global_sctui. unfold bind at 1.
      cbn [global_sctui set_tty set_out]. rewrite Hg.
      apply Z.eqb_neq in Hp. rewrite Hp. reflexivity.
    + now repeat split.
Qed.

Lemma init_fini_round_trip_witness :
  global_sctui world0 = NULL /\
  1 <> NULL /\
  ioctl_ret world0 <> -1 /\
  fst (ioctl_ws world0) <> 0 /\
  next_alloc world0 = Some (fun _ => "x"%byte) /\
  exists st2,
    (sctui_init linux_glibc 1 ;; sctui_fini) world0 = Ret tt st2 /\
    tty st2 = tty world0 /\
    global_sctui st2 = 1.
Proof.
  assert (H1 : global_sctui world0 = NULL) by reflexivity.
  assert (Hp : 1 <> NULL) by discriminate.
  assert (H2 : ioctl_ret world0 <> -1) by (cbn; discriminate).
  assert (H3 : fst (ioctl_ws world0) <> 0) by (cbn; discriminate).
  assert (H4 : next_alloc world0 = Some (fun _ => "x"%byte)) by reflexivity.
  repeat (split; [assumption|]).
  destruct (init_fini_round_trip linux_glibc 1 world0 _ H1 Hp H2 H3 H4)
    as (st2 & Hrun & Htty & _ & Hg & _).
  exists st2. now repeat split.
Defined.

(** ** What reaches the terminal, and when *)

Section Quiet.

Variable P : platform.
Hypothesis HP : platform_ok P.

Lemma buf_append_quiet (p : ptr) (text : list byte) (st : world) :
  buf_ok P (heap st p) ->
  buf_used (heap st p) + len (cstr_bytes text) <= BUFSIZ P ->
  exists st',
    _sctui_buf_append P p text st = Ret tt st' /\
    buf_ok P (heap st' p) /\
    cursor_pos st' p = cursor_pos st p /\
    out st' = out st /\
    held st' p = held st p ++ cstr_bytes text /\
    buf_used (heap st' p) = buf_used (heap st p) + len (cstr_bytes text).
Proof.
  intros Hok Hfit. change (len (cstr_bytes text)) with (strlen text) in *.
  assert (Hlen : strlen text <= BUFSIZ P) by (destruct Hok; lia).
  destruct (buf_append_held P HP p text st Hok Hlen)
    as (st' & Hrun & Hok' & _ & _ & Hx & Hy & Hcase).
  rewrite gtb_false in Hcase by exact Hfit.
  destruct Hcase as (Hout & Hheld & Hused).
  exists st'. unfold cursor_pos. rewrite Hx, Hy. now repeat split; try apply Hok'.
Qed.

Lemma sctui_cursor_quiet (p : ptr) (x y : Z) (st : world) :
  buf_ok P (heap st p) ->
  buf_used (heap st p) + len (move_bytes (cursor_pos st p) x y) <= BUFSIZ P ->
  exists st',
    sctui_cursor P p x y st = Ret tt st' /\
    buf_ok P (heap st' p) /\
    cursor_pos st' p = (x, y) /\
    out st' = out st /\
    held st' p = held st p ++ move_bytes (cursor_pos st p) x y /\
    buf_used (heap st' p)
    = buf_used (heap st p) + len (move_bytes (cursor_pos st p) x y).
Proof.
  intros Hok. unfold move_bytes, cursor_pos. cbn [fst snd].
  destruct ((cursor_x (heap st p) =? x) && (cursor_y (heap st p) =? y)) eqn:E.
  - intros _. apply andb_true_iff in E. destruct E as [Ex Ey].
    apply Z.eqb_eq in Ex, Ey.
    exists st. rewrite (sctui_cursor_same P p x y st Ex Ey).
    rewrite app_nil_r, Ex, Ey. unfold len. cbn [length Z.of_nat].
    rewrite Z.add_0_r. split; [reflexivity|]. split; [exact Hok|].
    now repeat split.
  - intros Hfit.
    destruct (sctui_cursor_moved P HP p x y st Hok)
      as (st' & Hrun & Hok' & Hx & Hy & Hcase).
    { intros [Ex Ey]. apply Z.eqb_eq in Ex, Ey. rewrite Ex, Ey in E.
      discriminate E. }
    assert (Hl : strlen (sprintf_cursor y x) = len (sprintf_cursor y x)).
    { unfold strlen, len. now rewrite sprintf_cursor_cstr. }
    rewrite Hl, gtb_false in Hcase by exact Hfit.
    destruct Hcase as (Hout & Hheld & Hused).
    exists st'. rewrite Hx, Hy. now repeat split; try apply Hok'.
Qed.

Lemma len_app (a b : list byte) : len (a ++ b) = len a + len b.
Proof. unfold len. rewrite length_app. lia. Qed.

Lemma len_nonneg (a : list byte) : 0 <= len a.
Proof. unfold len. lia. Qed.

Lemma run_call_quiet (p : ptr) (c : draw_call) (st : world) :
  buf_ok P (heap st p) ->
  no_commit c ->
  buf_used (heap st p) + len (fst (direct_call (cursor_pos st p) c))
  <= BUFSIZ P ->
  exists st',
    run_call P p c st = Ret tt st' /\
    buf_ok P (heap st' p) /\
    cursor_pos st' p = snd (direct_call (cursor_pos st p) c) /\
    out st' = out st /\
    held st' p = held st p ++ fst (direct_call (cursor_pos st p) c) /\
    buf_used (heap st' p)
    = buf_used (heap st p) + len (fst (direct_call (cursor_pos st p) c)).
Proof.
  intros Hok Hnc. destruct c as [x y| | |x y text|];
    cbn [run_call direct_call fst snd]; [| | | |contradiction].
  - apply sctui_cursor_quiet. exact Hok.
  - intros Hfit. unfold sctui_hide_cursor.
    now apply (buf_append_quiet p ESC_HIDE_CURSOR st Hok).
  - intros Hfit. unfold sctui_show_cursor.
    now apply (buf_append_quiet p ESC_SHOW_CURSOR st Hok).
  - rewrite !len_app. intros Hfit.
    pose proof (len_nonneg (move_bytes (cursor_pos st p) x y)).
    pose proof (len_nonneg (cstr_bytes text)).
    pose proof (len_nonneg
      (move_bytes (x, y) (fst (cursor_pos st p)) (snd (cursor_pos st p)))).
    destruct (sctui_cursor_quiet p x y st Hok)
      as (st1 & Hr1 & Hok1 & Hc1 & Ho1 & Hh1 & Hu1); [lia|].
    destruct (buf_append_quiet p text st1 Hok1)
      as (st2 & Hr2 & Hok2 & Hc2 & Ho2 & Hh2 & Hu2); [lia|].
    destruct (sctui_cursor_quiet p (cursor_x (heap st p)) (cursor_y (heap st p))
                st2 Hok2) as (st3 & Hr3 & Hok3 & Hc3 & Ho3 & Hh3 & Hu3).
    { rewrite Hc2, Hc1, Hu2, Hu1. unfold cursor_pos in *. cbn [fst snd] in *. lia. }
    exists st3. split.
    { unfold sctui_text, bind at 1, deref. unfold bind. now rewrite Hr1, Hr2. }
    rewrite Hc2, Hc1 in Hh3, Hu3.
    split; [exact Hok3|]. split; [exact Hc3|]. split; [congruence|].
    split.
    + rewrite Hh3, Hh2, Hh1, <- !app_assoc. reflexivity.
    + rewrite Hu3, Hu2, Hu1. unfold cursor_pos. cbn [fst snd]. lia.
Qed.

Lemma run_calls_quiet (p : ptr) (cs : list draw_call) :
  Forall no_commit cs ->
  forall st,
    buf_ok P (heap st p) ->
    buf_used (heap st p) + len (fst (direct_calls (cursor_pos st p) cs))
    <= BUFSIZ P ->
    exists st',
      run_calls P p cs st = Ret tt st' /\
      buf_ok P (heap st' p) /\
      cursor_pos st' p = snd (direct_calls (cursor_pos st p) cs) /\
      out st' = out st /\
      held st' p = held st p ++ fst (direct_calls (cursor_pos st p) cs).
Proof.
  induction 1 as [|c cs Hc _ IH]; intros st Hok.
  - intros _. exists st. cbn. rewrite app_nil_r.
    split; [reflexivity|]. split; [exact Hok|]. now repeat split.
  - cbn [run_calls direct_calls].
    destruct (direct_call (cursor_pos st p) c) as [b pos1] eqn:E1.
    destruct (direct_calls pos1 cs) as [bs pos2] eqn:E2.
    cbn [fst snd]. rewrite len_app. intros Hfit.
    pose proof (len_nonneg b). pose proof (len_nonneg bs).
    destruct (run_call_quiet p c st Hok Hc)
      as (st1 & Hr1 & Hok1 & Hc1 & Ho1 & Hh1 & Hu1).
    { rewrite E1. cbn [fst]. lia. }
    rewrite E1 in Hc1, Hh1, Hu1. cbn [fst snd] in Hc1, Hh1, Hu1.
    destruct (IH st1 Hok1) as (st' & Hr & Hok' & Hc' & Ho' & Hh').
    { rewrite Hc1, E2, Hu1. cbn [fst]. lia. }
    rewrite Hc1, E2 in Hc', Hh'. cbn [fst snd] in Hc', Hh'.
    exists st'. unfold bind. rewrite Hr1.
    split; [exact Hr|]. split; [exact Hok'|]. split; [exact Hc'|].
    split; [congruence|].
    rewrite Hh', Hh1, <- app_assoc. reflexivity.
Qed.

End Quiet.

(** X8. Nothing reaches the terminal before a commit while the buffer has
    room: a program of drawing calls without commits whose bytes fit into
    what is left of the draw buffer returns without a single write, and
    its bytes are held behind those that were held already. *)
Theorem drawing_waits_for_commit
  (P : platform) (p : ptr) (cs : list draw_call) (st : world) :
  platform_ok P ->
  buf_ok P (heap st p) ->
  Forall no_commit cs ->
  buf_used (heap st p) + len (fst (direct_calls (cursor_pos st p) cs))
  <= BUFSIZ P ->
  exists st',
    run_calls P p cs st = Ret tt st' /\
    out st' = out st /\
    held st' p = held st p ++ fst (direct_calls (cursor_pos st p) cs).
Proof.
  intros HP Hok Hnc Hfit.
  destruct (run_calls_quiet P HP p cs Hnc st Hok Hfit)
    as (st' & Hrun & _ & _ & Hout & Hheld).
  exists st'. now repeat split.
Qed.

Lemma drawing_waits_for_commit_witness :
  platform_ok linux_glibc /\
  buf_ok linux_glibc (heap session1 1) /\
  Forall no_commit [CallHideCursor; CallText 3 2 ["h"; "i"]%byte] /\
  buf_used (heap session1 1)
  + len (fst (direct_calls (cursor_pos session1 1)
                [CallHideCursor; CallText 3 2 ["h"; "i"]%byte]))
  <= BUFSIZ linux_glibc /\
  exists st',
    run_calls linux_glibc 1 [CallHideCursor; CallText 3 2 ["h"; "i"]%byte]
      session1 = Ret tt st' /\
    out st' = out session1.
Proof.
  assert (Hnc : Forall no_commit [CallHideCursor; CallText 3 2 ["h"; "i"]%byte])
    by (repeat constructor).
  assert (Hfit : buf_used (heap session1 1)
                 + len (fst (direct_calls (cursor_pos session1 1)
                               [CallHideCursor; CallText 3 2 ["h"; "i"]%byte]))
                 <= BUFSIZ linux_glibc) by (vm_compute; discriminate).
  split; [exact platform_ok_linux|]. split; [exact buf_ok_session1|].
  split; [exact Hnc|]. split; [exact Hfit|].
  destruct (drawing_waits_for_commit linux_glibc 1 _ session1
              platform_ok_linux buf_ok_session1 Hnc Hfit)
    as (st' & Hrun & Hout & _).
  exists st'. now split.
Defined.

(** X9. [sctui_clear] overtakes what was drawn: after drawing calls that
    fit into the buffer, [sctui_clear] and then [sctui_commit] make two
    writes, first the clear-screen sequence and only then the bytes held,
    those drawn before the clear included. *)
Theorem clear_overtakes_drawing
  (P : platform) (p : ptr) (cs : list draw_call) (st : world) :
  platform_ok P ->
  buf_ok P (heap st p) ->
  Forall no_commit cs ->
  buf_used (heap st p) + len (fst (direct_calls (cursor_pos st p) cs))
  <= BUFSIZ P ->
  exists st',
    (run_calls P p cs ;; sctui_clear ;; sctui_commit p) st = Ret tt st' /\
    out st' = out st ++ [ESC_CLEAR_SCREEN;
                         held st p ++ fst (direct_calls (cursor_pos st p) cs)] /\
    held st' p = [].
Proof.
  intros HP Hok Hnc Hfit.
  destruct (run_calls_quiet P HP p cs Hnc st Hok Hfit)
    as (st1 & Hrun & _ & _ & Hout & Hheld).
  destruct (sctui_commit_run p
              (set_out st1 (out st1 ++ [firstn 4 ESC_CLEAR_SCREEN])))
    as (st' & Hr2 & Hout2 & Hheap2 & _).
  exists st'. split.
  - unfold bind. rewrite Hrun. unfold sctui_clear, write_stdout. exact Hr2.
  - split.
    + rewrite Hout2. cbn [out set_out]. rewrite Hout, <- app_assoc.
      unfold held in *. cbn [heap set_out]. now rewrite Hheld.
    + unfold held. rewrite Hheap2. reflexivity.
Qed.

Lemma clear_overtakes_drawing_witness :
  platform_ok linux_glibc /\
  buf_ok linux_glibc (heap session1 1) /\
  Forall no_commit [CallText 3 2 ["h"; "i"]%byte] /\
  buf_used (heap session1 1)
  + len (fst (direct_calls (cursor_pos session1 1)
                [CallText 3 2 ["h"; "i"]%byte]))
  <= BUFSIZ linux_glibc /\
  exists st',
    (run_calls linux_glibc 1 [CallText 3 2 ["h"; "i"]%byte] ;;
     sctui_clear ;; sctui_commit 1) session1 = Ret tt st' /\
    held st' 1 = [].
Proof.
  assert (Hnc : Forall no_commit [CallText 3 2 ["h"; "i"]%byte])
    by (repeat constructor).
  assert (Hfit : buf_used (heap session1 1)
                 + len (fst (direct_calls (cursor_pos session1 1)
                               [CallText 3 2 ["h"; "i"]%byte]))
                 <= BUFSIZ linux_glibc) by (vm_compute; discriminate).
  split; [exact platform_ok_linux|]. split; [exact buf_ok_session1|].
  split; [exact Hnc|]. split; [exact Hfit|].
  destruct (clear_overtakes_drawing linux_glibc 1 _ session1
              platform_ok_linux buf_ok_session1 Hnc Hfit)
    as (st' & Hrun & _ & Hheld).
  exists st'. now split.
Defined.

(** ** What drawing never touches *)

Lemma draw_frame_refl (p : ptr) (st : world) : draw_frame p st st.
Proof. unfold draw_frame. split; [apply same_env_refl|]. now repeat split. Qed.

Lemma draw_frame_trans (p : ptr) (a b c : world) :
  draw_frame p a b -> draw_frame p b c -> draw_frame p a c.
Proof.
  unfold draw_frame.
  intros (He1 & Hf1 & ? & ? & ? & ? & ?) (He2 & Hf2 & ? & ? & ? & ? & ?).
  split; [exact (same_env_trans a b c He1 He2)|].
  split; [intros q Hq; rewrite Hf2, Hf1 by exact Hq; reflexivity|].
  repeat split; congruence.
Qed.

Lemma assign_frame (p : ptr) (f : sctui -> sctui) (st st' : world) (u : unit) :
  (forall s, orig (f s) = orig s /\ cur (f s) = cur s /\ w (f s) = w s /\
             h (f s) = h s /\ buf_size (f s) = buf_size s) ->
  assign p f st = Ret u st' ->
  draw_frame p st st'.
Proof.
  intros Hf. unfold assign. intros [= _ <-].
  unfold draw_frame, same_env.
  cbn [set_heap heap out global_sctui tty err input ioctl_ret ioctl_ws
       next_alloc].
  rewrite Z.eqb_refl. destruct (Hf (heap st p)) as (? & ? & ? & ? & ?).
  repeat split; try assumption.
  intros q Hq. apply Z.eqb_neq in Hq. now rewrite Hq.
Qed.

Lemma sctui_commit_frame (p : ptr) (st st' : world) (u : unit) :
  sctui_commit p st = Ret u st' -> draw_frame p st st'.
Proof.
  intros H.
  destruct (sctui_commit_run p st) as (st1 & Hrun & _ & Hheap & Hfr & Henv).
  rewrite Hrun in H. injection H as _ <-.
  unfold draw_frame. rewrite Hheap.
  split; [exact Henv|]. split; [exact Hfr|]. now repeat split.
Qed.

Lemma buf_append_frame
  (P : platform) (p : ptr) (text : list byte) (st st' : world) (u : unit) :
  _sctui_buf_append P p text st = Ret u st' -> draw_frame p st st'.
Proof.
  intros H.
  destruct (Z.leb_spec (strlen text) (BUFSIZ P)) as [Hlen|Hlen].
  - destruct (buf_append_run P p text st Hlen)
      as (st1 & Hrun & _ & Hheap & Hfr & Henv).
    rewrite Hrun in H. injection H as _ <-.
    unfold draw_frame. rewrite Hheap.
    split; [exact Henv|]. split; [exact Hfr|]. now repeat split.
  - exfalso. unfold _sctui_buf_append, bind at 1, assert in H.
    apply Z.leb_gt in Hlen. rewrite Hlen in H. discriminate H.
Qed.

Lemma sctui_cursor_frame
  (P : platform) (p : ptr) (x y : Z) (st st' : world) (u : unit) :
  sctui_cursor P p x y st = Ret u st' -> draw_frame p st st'.
Proof.
  unfold sctui_cursor, bind at 1, deref.
  destruct ((cursor_x (heap st p) =? x) && (cursor_y (heap st p) =? y)).
  - intros [= _ <-]. apply draw_frame_refl.
  - intros H. inv_bind H as Happ. apply buf_append_frame in Happ.
    inv_bind H as Hx.
    apply assign_frame in Hx; [|intros s; now repeat split].
    apply assign_frame in H; [|intros s; now repeat split].
    eauto using draw_frame_trans.
Qed.

Lemma sctui_text_frame
  (P : platform) (p : ptr) (x y : Z) (text : list byte)
  (st st' : world) (u : unit) :
  sctui_text P p x y text st = Ret u st' -> draw_frame p st st'.
Proof.
  unfold sctui_text, bind at 1, deref. intros H.
  inv_bind H as H1. apply sctui_cursor_frame in H1.
  inv_bind H as H2. apply buf_append_frame in H2.
  apply sctui_cursor_frame in H.
  eauto using draw_frame_trans.
Qed.

Lemma run_calls_frame (P : platform) (p : ptr) (cs : list draw_call) :
  forall st st', run_calls P p cs st = Ret tt st' -> draw_frame p st st'.
Proof.
  induction cs as [|c cs IH]; intros st st' H.
  - injection H as <-. apply draw_frame_refl.
  - cbn [run_calls] in H. inv_bind H as Hc.
    apply IH in H. apply (draw_frame_trans p st st0 st'); [|exact H].
    destruct c; cbn [run_call] in Hc.
    + now apply sctui_cursor_frame in Hc.
    + now apply buf_append_frame in Hc.
    + now apply buf_append_frame in Hc.
    + now apply sctui_text_frame in Hc.
    + now apply sctui_commit_frame in Hc.
Qed.

Lemma write_bytes_outside (l : list byte) (m : mem) (dst j : Z) :
  j < dst \/ dst + Z.of_nat (length l) <= j -> write_bytes m dst l j = m j.
Proof.
  revert m dst. induction l as [|b l IH]; intros m dst Hj; cbn [write_bytes];
    [reflexivity|].
  cbn [length] in Hj. rewrite IH by lia. apply upd_other. lia.
Qed.

Lemma outside_kept_refl (P : platform) (p : ptr) (st : world) :
  outside_kept P p st st.
Proof. now intros j _. Qed.

Lemma outside_kept_trans (P : platform) (p : ptr) (a b c : world) :
  outside_kept P p a b -> outside_kept P p b c -> outside_kept P p a c.
Proof. intros H1 H2 j Hj. now rewrite (H2 j Hj), (H1 j Hj). Qed.

Section Inside.

Variable P : platform.
Hypothesis HP : platform_ok P.

(** An append that ends before the last byte of the buffer. *)
Lemma buf_append_inside (p : ptr) (text : list byte) (st : world) :
  buf_ok P (heap st p) ->
  buf_used (heap st p) + len (cstr_bytes text) < BUFSIZ P ->
  exists st',
    _sctui_buf_append P p text st = Ret tt st' /\
    buf_ok P (heap st' p) /\
    cursor_pos st' p = cursor_pos st p /\
    buf_used (heap st' p) = buf_used (heap st p) + len (cstr_bytes text) /\
    draw_frame p st st' /\
    outside_kept P p st st'.
Proof.
  intros Hok Hfit.
  destruct (buf_append_quiet P HP p text st Hok)
    as (st' & Hrun & Hok' & Hc & _ & _ & Hu); [lia|].
  exists st'. split; [exact Hrun|]. split; [exact Hok'|]. split; [exact Hc|].
  split; [exact Hu|]. split; [exact (buf_append_frame P p text st st' tt Hrun)|].
  change (len (cstr_bytes text)) with (strlen text) in *.
  destruct Hok as [Hsize Hused]. pose proof (strlen_nonneg text) as Hnn.
  destruct (buf_append_run P p text st) as (st1 & Hrun1 & _ & Hheap & _); [lia|].
  rewrite Hrun in Hrun1. injection Hrun1 as <-.
  unfold platform_ok, INT_MAX in HP.
  rewrite size_add_small in Hheap by (unfold SIZE_MAX; lia).
  rewrite gtb_false in Hheap by lia.
  intros j Hj. rewrite Hheap. cbn [buf set_buf set_buf_used].
  unfold stpcpy. apply write_bytes_outside.
  rewrite length_app. cbn [length]. unfold strlen in *. lia.
Qed.

Lemma sctui_cursor_inside (p : ptr) (x y : Z) (st : world) :
  buf_ok P (heap st p) ->
  buf_used (heap st p) + len (move_bytes (cursor_pos st p) x y) < BUFSIZ P ->
  exists st',
    sctui_cursor P p x y st = Ret tt st' /\
    buf_ok P (heap st' p) /\
    cursor_pos st' p = (x, y) /\
    buf_used (heap st' p)
    = buf_used (heap st p) + len (move_bytes (cursor_pos st p) x y) /\
    draw_frame p st st' /\
    outside_kept P p st st'.
Proof.
  intros Hok. unfold move_bytes, cursor_pos. cbn [fst snd].
  destruct ((cursor_x (heap st p) =? x) && (cursor_y (heap st p) =? y)) eqn:E.
  - intros _. apply andb_true_iff in E. destruct E as [Ex Ey].
    apply Z.eqb_eq in Ex, Ey.
    exists st. rewrite (sctui_cursor_same P p x y st Ex Ey).
    rewrite Ex, Ey. unfold len. cbn [length Z.of_nat]. rewrite Z.add_0_r.
    split; [reflexivity|]. split; [exact Hok|]. split; [reflexivity|].
    split; [reflexivity|].
    split; [apply draw_frame_refl|apply outside_kept_refl].
  - intros Hfit.
    assert (Hcs : cstr_bytes (sprintf_cursor y x) = sprintf_cursor y x)
      by apply sprintf_cursor_cstr.
    destruct (buf_append_inside p (sprintf_cursor y x) st Hok)
      as (st1 & Happ & Hok1 & _ & Hu1 & Hfr1 & Hout1).
    { now rewrite Hcs. }
    rewrite Hcs in Hu1.
    destruct (assign_cursor_run p x y st1) as (st' & Hasg & Hheap & _ & _).
    assert (Hrun : sctui_cursor P p x y st = Ret tt st').
    { unfold sctui_cursor, bind at 1, deref. rewrite E.
      unfold bind at 1. rewrite Happ. exact Hasg. }
    exists st'. split; [exact Hrun|].
    split; [unfold buf_ok in *; now rewrite Hheap|].
    split; [now rewrite Hheap|].
    split; [rewrite Hheap; exact Hu1|].
    split; [exact (sctui_cursor_frame P p x y st st' tt Hrun)|].
    intros j Hj. rewrite Hheap. cbn [buf set_cursor_x set_cursor_y].
    exact (Hout1 j Hj).
Qed.

Lemma run_call_inside (p : ptr) (c : draw_call) (st : world) :
  buf_ok P (heap st p) ->
  buf_used (heap st p) + len (fst (direct_call (cursor_pos st p) c))
  < BUFSIZ P ->
  exists st',
    run_call P p c st = Ret tt st' /\
    buf_ok P (heap st' p) /\
    cursor_pos st' p = snd (direct_call (cursor_pos st p) c) /\
    buf_used (heap st' p)
    <= buf_used (heap st p) + len (fst (direct_call (cursor_pos st p) c)) /\
    draw_frame p st st' /\
    outside_kept P p st st'.
Proof.
  intros Hok. destruct c as [x y| | |x y text|];
    cbn [run_call direct_call fst snd].
  - intros Hfit.
    destruct (sctui_cursor_inside p x y st Hok Hfit)
      as (st' & Hrun & Hok' & Hc & Hu & Hfr & Hout).
    exists st'. repeat split; try assumption; try apply Hok'; try apply Hfr. lia.
  - intros Hfit. unfold sctui_hide_cursor.
    destruct (buf_append_inside p ESC_HIDE_CURSOR st Hok Hfit)
      as (st' & Hrun & Hok' & Hc & Hu & Hfr & Hout).
    exists st'. split; [exact Hrun|]. split; [exact Hok'|]. split; [exact Hc|].
    split; [rewrite Hu; apply Z.le_refl|]. now split.
  - intros Hfit. unfold sctui_show_cursor.
    destruct (buf_append_inside p ESC_SHOW_CURSOR st Hok Hfit)
      as (st' & Hrun & Hok' & Hc & Hu & Hfr & Hout).
    exists st'. split; [exact Hrun|]. split; [exact Hok'|]. split; [exact Hc|].
    split; [rewrite Hu; apply Z.le_refl|]. now split.
  - rewrite !len_app. intros Hfit.
    pose proof (len_nonneg (move_bytes (cursor_pos st p) x y)).
    pose proof (len_nonneg (cstr_bytes text)).
    pose proof (len_nonneg
      (move_bytes (x, y) (fst (cursor_pos st p)) (snd (cursor_pos st p)))).
    destruct (sctui_cursor_inside p x y st Hok)
      as (st1 & Hr1 & Hok1 & Hc1 & Hu1 & Hfr1 & Hout1); [lia|].
    destruct (buf_append_inside p text st1 Hok1)
      as (st2 & Hr2 & Hok2 & Hc2 & Hu2 & Hfr2 & Hout2); [lia|].
    destruct (sctui_cursor_inside p (cursor_x (heap st p)) (cursor_y (heap st p))
                st2 Hok2) as (st3 & Hr3 & Hok3 & Hc3 & Hu3 & Hfr3 & Hout3).
    { rewrite Hc2, Hc1, Hu2, Hu1. unfold cursor_pos in *. cbn [fst snd] in *. lia. }
    exists st3. split.
    { unfold sctui_text, bind at 1, deref. unfold bind. now rewrite Hr1, Hr2. }
    rewrite Hc2, Hc1 in Hu3.
    split; [exact Hok3|]. split; [exact Hc3|].
    split; [rewrite Hu3, Hu2, Hu1; unfold cursor_pos; cbn [fst snd]; lia|].
    split.
    + exact (draw_frame_trans p st st2 st3
               (draw_frame_trans p st st1 st2 Hfr1 Hfr2) Hfr3).
    + exact (outside_kept_trans P p st st2 st3
               (outside_kept_trans P p st st1 st2 Hout1 Hout2) Hout3).
  - intros Hfit.
    destruct (sctui_commit_run p st) as (st' & Hrun & _ & Hheap & _).
    exists st'. split; [exact Hrun|].
    destruct Hok as [Hsize Hused].
    split; [unfold buf_ok; rewrite Hheap; cbn [buf_size buf_used set_buf_used]; lia|].
    split; [unfold cursor_pos; now rewrite Hheap|].
    split; [rewrite Hheap; cbn [buf_used set_buf_used]; unfold len; cbn; lia|].
    split; [exact (sctui_commit_frame p st st' tt Hrun)|].
    intros j Hj. now rewrite Hheap.
Qed.

Lemma run_calls_inside (p : ptr) (cs : list draw_call) :
  forall st,
    buf_ok P (heap st p) ->
    buf_used (heap st p) + len (fst (direct_calls (cursor_pos st p) cs))
    < BUFSIZ P ->
    exists st',
      run_calls P p cs st = Ret tt st' /\
      buf_ok P (heap st' p) /\
      draw_frame p st st' /\
      outside_kept P p st st'.
Proof.
  induction cs as [|c cs IH]; intros st Hok.
  - intros _. exists st. split; [reflexivity|]. split; [exact Hok|].
    split; [apply draw_frame_refl|apply outside_kept_refl].
  - cbn [run_calls direct_calls].
    destruct (direct_call (cursor_pos st p) c) as [b pos1] eqn:E1.
    destruct (direct_calls pos1 cs) as [bs pos2] eqn:E2.
    cbn [fst snd]. rewrite len_app. intros Hfit.
    pose proof (len_nonneg b). pose proof (len_nonneg bs).
    destruct (run_call_inside p c st Hok)
      as (st1 & Hr1 & Hok1 & Hc1 & Hu1 & Hfr1 & Hout1).
    { rewrite E1. cbn [fst]. lia. }
    rewrite E1 in Hc1, Hu1. cbn [fst snd] in Hc1, Hu1.
    destruct (IH st1 Hok1) as (st' & Hr & Hok' & Hfr & Hout).
    { rewrite Hc1, E2. cbn [fst]. lia. }
    exists st'. unfold bind. rewrite Hr1.
    split; [exact Hr|]. split; [exact Hok'|].
    split; [exact (draw_frame_trans p st st1 st' Hfr1 Hfr)|].
    exact (outside_kept_trans P p st st1 st' Hout1 Hout).
Qed.

End Inside.

(** X10. Drawing that stays inside the buffer touches nothing but the
    [BUFSIZ] bytes of the draw buffer, its used length, the recorded cursor
    position and the output.  A program of drawing calls (commits included)
    whose bytes are, taken together, fewer than the room left in the
    buffer returns with every byte outside the allocation of the buffer as
    it was, and with the terminal attributes, [stderr], the pending input,
    the global session pointer, every other [struct sctui], and in the
    session drawn to the saved and the raw attributes, the window size and
    the capacity as they were. *)
Theorem drawing_leaves_the_rest
  (P : platform) (p : ptr) (cs : list draw_call) (st : world) :
  platform_ok P ->
  buf_ok P (heap st p) ->
  buf_used (heap st p) + len (fst (direct_calls (cursor_pos st p) cs))
  < BUFSIZ P ->
  exists st',
    run_calls P p cs st = Ret tt st' /\
    (forall j, j < 0 \/ BUFSIZ P <= j ->
       buf (heap st' p) j = buf (heap st p) j) /\
    tty st' = tty st /\ err st' = err st /\ input st' = input st /\
    global_sctui st' = global_sctui st /\
    (forall q, q <> p -> heap st' q = heap st q) /\
    orig (heap st' p) = orig (heap st p) /\
    cur (heap st' p) = cur (heap st p) /\
    w (heap st' p) = w (heap st p) /\
    h (heap st' p) = h (heap st p) /\
    buf_size (heap st' p) = buf_size (heap st p).
Proof.
  intros HP Hok Hfit.
  destruct (run_calls_inside P HP p cs st Hok Hfit)
    as (st' & Hrun & _ & Hfr & Hout).
  exists st'. split; [exact Hrun|]. split; [exact Hout|].
  destruct Hfr as ((? & ? & ? & ? & _) & ? & ? & ? & ? & ? & ?).
  now repeat split.
Qed.

Lemma drawing_leaves_the_rest_witness :
  platform_ok linux_glibc /\
  buf_ok linux_glibc (heap session1 1) /\
  buf_used (heap session1 1)
  + len (fst (direct_calls (cursor_pos session1 1)
                [CallCursor 4 4; CallCommit; CallText 3 2 ["h"; "i"]%byte]))
  < BUFSIZ linux_glibc /\
  exists st',
    run_calls linux_glibc 1
      [CallCursor 4 4; CallCommit; CallText 3 2 ["h"; "i"]%byte] session1
    = Ret tt st' /\
    (forall j, j < 0 \/ BUFSIZ linux_glibc <= j ->
       buf (heap st' 1) j = buf (heap session1 1) j) /\
    tty st' = tty session1.
Proof.
  assert (Hfit : buf_used (heap session1 1)
                 + len (fst (direct_calls (cursor_pos session1 1)
                               [CallCursor 4 4; CallCommit;
                                CallText 3 2 ["h"; "i"]%byte]))
                 < BUFSIZ linux_glibc) by (vm_compute; reflexivity).
  split; [exact platform_ok_linux|]. split; [exact buf_ok_session1|].
  split; [exact Hfit|].
  destruct (drawing_leaves_the_rest linux_glibc 1 _ session1
              platform_ok_linux buf_ok_session1 Hfit)
    as (st' & Hrun & Hout & Htty & _).
  exists st'. now repeat split.
Defined.

(** X11. [sctui_fini] does not commit.  After drawing calls whose bytes fit
    into the buffer, [sctui_fini] on the global session makes one write,
    the sequence leaving the alternate screen, and restores the saved
    attributes; the bytes drawn are still held and have not been
    written. *)
Theorem fini_drops_pending
  (P : platform) (p : ptr) (cs : list draw_call) (st : world) :
  platform_ok P ->
  buf_ok P (heap st p) ->
  global_sctui st = p ->
  p <> NULL ->
  Forall no_commit cs ->
  buf_used (heap st p) + len (fst (direct_calls (cursor_pos st p) cs))
  <= BUFSIZ P ->
  exists st',
    (run_calls P p cs ;; sctui_fini) st = Ret tt st' /\
    out st' = out st ++ [ESC_CLOSE_ALT_SCREEN] /\
    tty st' = orig (heap st p) /\
    held st' p = held st p ++ fst (direct_calls (cursor_pos st p) cs).
Proof.
  intros HP Hok Hg Hp Hnc Hfit.
  destruct (run_calls_quiet P HP p cs Hnc st Hok Hfit)
    as (st1 & Hrun & _ & _ & Hout & Hheld).
  pose proof (run_calls_frame P p cs st st1 Hrun)
    as ((Hg1 & _) & _ & Horig & _).
  eexists. split.
  - unfold bind. rewrite Hrun. apply sctui_fini_run. congruence.
  - cbn [out tty set_tty set_out]. unfold held in *. cbn [heap set_tty set_out].
    rewrite Hg1, Hg, Horig, Hout, Hheld. now repeat split.
Qed.

Lemma fini_drops_pending_witness :
  platform_ok linux_glibc /\
  buf_ok linux_glibc (heap session1 1) /\
  global_sctui session1 = 1 /\
  1 <> NULL /\
  Forall no_commit [CallText 3 2 ["h"; "i"]%byte] /\
  buf_used (heap session1 1)
  + len (fst (direct_calls (cursor_pos session1 1)
                [CallText 3 2 ["h"; "i"]%byte]))
  <= BUFSIZ linux_glibc /\
  exists st',
    (run_calls linux_glibc 1 [CallText 3 2 ["h"; "i"]%byte] ;; sctui_fini)
      session1 = Ret tt st' /\
    out st' = out session1 ++ [ESC_CLOSE_ALT_SCREEN].
Proof.
  assert (Hg : global_sctui session1 = 1) by reflexivity.
  assert (Hp : 1 <> NULL) by discriminate.
  assert (Hnc : Forall no_commit [CallText 3 2 ["h"; "i"]%byte])
    by (repeat constructor).
  assert (Hfit : buf_used (heap session1 1)
                 + len (fst (direct_calls (cursor_pos session1 1)
                               [CallText 3 2 ["h"; "i"]%byte]))
                 <= BUFSIZ linux_glibc) by (vm_compute; discriminate).
  split; [exact platform_ok_linux|]. split; [exact buf_ok_session1|].
  split; [exact Hg|]. split; [exact Hp|]. split; [exact Hnc|].
  split; [exact Hfit|].
  destruct (fini_drops_pending linux_glibc 1 _ session1
              platform_ok_linux buf_ok_session1 Hg Hp Hnc Hfit)
    as (st' & Hrun & Hout & _).
  exists st'. now split.
Defined.

(** ** A text that is too long *)

(** X12. [sctui_text] with a text longer than [BUFSIZ] ends in the failed
    [assert] of the append, but only after its first cursor move: the
    move to [(x, y)] has been added to the output, none of the text has,
    and the recorded position is [(x, y)], not the one to come back to. *)
Theorem text_too_long_aborts_midway
  (P : platform) (p : ptr) (x y : Z) (text : list byte) (st : world) :
  platform_ok P ->
  buf_ok P (heap st p) ->
  BUFSIZ P < strlen text ->
  exists st',
    sctui_text P p x y text st = Abort st' /\
    cursor_pos st' p = (x, y) /\
    written st' ++ held st' p
    = written st ++ held st p ++ move_bytes (cursor_pos st p) x y.
Proof.
  intros HP Hok Hlong.
  destruct (sctui_cursor_stream P HP p x y st Hok) as (st1 & Hr1 & _ & Hc1 & Hp1).
  exists st1. split.
  - unfold sctui_text, bind at 1, deref. unfold bind at 1. rewrite Hr1.
    unfold bind at 1, _sctui_buf_append, bind at 1, assert.
    apply Z.leb_gt in Hlong. now rewrite Hlong.
  - split; [exact Hc1|]. unfold pending in Hp1. now rewrite <- app_assoc in Hp1.
Qed.

Lemma text_too_long_aborts_midway_witness :
  platform_ok linux_glibc /\
  buf_ok linux_glibc (heap session1 1) /\
  BUFSIZ linux_glibc < strlen ("b"%byte :: text_8192) /\
  exists st',
    sctui_text linux_glibc 1 3 2 ("b"%byte :: text_8192) session1 = Abort st' /\
    cursor_pos st' 1 = (3, 2).
Proof.
  assert (Hlong : BUFSIZ linux_glibc < strlen ("b"%byte :: text_8192))
    by (vm_compute; reflexivity).
  split; [exact platform_ok_linux|]. split; [exact buf_ok_session1|].
  split; [exact Hlong|].
  destruct (text_too_long_aborts_midway linux_glibc 1 3 2 _ session1
              platform_ok_linux buf_ok_session1 Hlong) as (st' & Hrun & Hc & _).
  exists st'. now split.
Defined.

(** ** Control keys *)

Lemma KCTRL_mod (k : Z) : KCTRL k = k mod 32.
Proof. unfold KCTRL. change 31 with (Z.ones 5). now rewrite Z.land_ones by lia. Qed.

(** X13. [KCTRL] keeps the low five bits: its value lies between 0 and 31
    for every [int], it maps the lower-case letters a..z to 1..26 and the
    upper-case letters to the same codes, it is idempotent, and the key
    constants fit it: [KCTRL('m')] is [KCR] and [KCTRL('[')] is [KESC],
    while [KBS] (127) is the code of no control key. *)
Theorem KCTRL_letters (k : Z) :
  0 <= KCTRL k <= 31 /\
  KCTRL (KCTRL k) = KCTRL k /\
  KCTRL (k + 32) = KCTRL k /\
  (97 <= k <= 122 -> KCTRL k = k - 96 /\ KCTRL (k - 32) = k - 96) /\
  KCTRL 109 = KCR /\ KCTRL 91 = KESC /\ KCTRL k <> KBS.
Proof.
  rewrite !KCTRL_mod.
  pose proof (Z.mod_pos_bound k 32 ltac:(lia)) as Hb.
  split; [lia|]. split; [apply Z.mod_mod; lia|].
  split.
  { replace (k + 32) with (k + 1 * 32) by lia. apply Z.mod_add. lia. }
  split.
  { intros Hk. split.
    - symmetry. apply (Z.mod_unique k 32 3 (k - 96)); lia.
    - symmetry. apply (Z.mod_unique (k - 32) 32 2 (k - 96)); lia. }
  split; [reflexivity|]. split; [reflexivity|].
  unfold KBS. lia.
Qed.

Lemma KCTRL_letters_witness :
  97 <= 99 <= 122 /\ KCTRL 99 = 3 /\ KCTRL 67 = 3.
Proof.
  assert (H : 97 <= 99 <= 122) by lia.
  split; [exact H|].
  destruct (KCTRL_letters 99) as (_ & _ & _ & Hl & _).
  exact (Hl H).
Defined.

(** ** The footprint of [sctui_prepare_text] and the string it leaves *)

(** X14. Within its range of arguments ([0 <= w], [offset <= w], the
    difference and the text's length within [int]) [sctui_prepare_text]
    stores nothing below index [min 0 offset] and nothing above index [w]:
    those bytes are as before.  Index [w] itself is always stored to (the
    terminator), so the destination has to be [w + 1] bytes long, and with
    [0 <= offset] the call stays within exactly those. *)
Theorem prepare_text_footprint (buf : mem) (offset w : Z) (text : list byte) :
  0 <= w <= INT_MAX ->
  INT_MIN <= offset <= w ->
  w - offset <= INT_MAX ->
  strlen text <= INT_MAX ->
  (forall j, j < Z.min 0 offset \/ w < j ->
     sctui_prepare_text buf offset w text j = buf j) /\
  sctui_prepare_text buf offset w text w = NUL.
Proof.
  intros Hw Hoff Hdiff Htl.
  split; [|now apply prepare_text_cells].
  intros j Hj.
  pose proof (strlen_nonneg text) as Hnn.
  unfold sctui_prepare_text.
  rewrite (to_int_small (strlen text)) by (unfold INT_MIN, INT_MAX in *; lia).
  rewrite (to_int_small (w - offset)) by (unfold INT_MIN, INT_MAX in *; lia).
  set (n := if w - offset >? strlen text then strlen text else w - offset).
  assert (Hn : 0 <= n <= w - offset).
  { subst n. rewrite Z.gtb_ltb.
    destruct (Z.ltb_spec (strlen text) (w - offset)); lia. }
  rewrite (to_int_small (offset + n)) by (unfold INT_MIN, INT_MAX in *; lia).
  rewrite (to_size_t_small n) by (unfold SIZE_MAX, INT_MAX in *; lia).
  set (m1 := strncpy buf offset text n).
  destruct (fill_spaces (Z.to_nat offset) 0 m1) as [m2 i2] eqn:E2.
  pose proof (fill_spaces_spec (Z.to_nat offset) 0 m1) as [_ H2].
  rewrite E2 in H2. cbn [fst] in H2.
  destruct (blank_rest (Z.to_nat (w - offset)) offset (offset + n) m2)
    as [m3 i3] eqn:E3.
  pose proof (blank_rest_spec (Z.to_nat (w - offset)) (offset + n) offset m2)
    as [Hi3 H3].
  rewrite E3 in Hi3, H3. cbn [fst snd] in Hi3, H3.
  assert (Hi : i3 = w) by lia. clear Hi3 E3. subst i3.
  rewrite upd_other by lia. rewrite H3.
  replace ((offset <=? j) && (j <? offset + Z.of_nat (Z.to_nat (w - offset))))
    with false
    by (destruct (Z.leb_spec offset j);
        destruct (Z.ltb_spec j (offset + Z.of_nat (Z.to_nat (w - offset))));
        cbn [andb]; try reflexivity; lia).
  rewrite H2.
  replace ((0 <=? j) && (j <? 0 + Z.of_nat (Z.to_nat offset))) with false
    by (destruct (Z.leb_spec 0 j);
        destruct (Z.ltb_spec j (0 + Z.of_nat (Z.to_nat offset)));
        cbn [andb]; try reflexivity; lia).
  subst m1. unfold strncpy.
  destruct (Z.leb_spec offset j); destruct (Z.ltb_spec j (offset + n));
    cbn [andb]; try reflexivity; lia.
Qed.

Lemma prepare_text_footprint_witness :
  0 <= 6 <= INT_MAX /\
  INT_MIN <= 2 <= 6 /\
  6 - 2 <= INT_MAX /\
  strlen ["h"; "i"]%byte <= INT_MAX /\
  forall j, j < Z.min 0 2 \/ 6 < j ->
    sctui_prepare_text (fun _ => "x"%byte) 2 6 ["h"; "i"]%byte j = "x"%byte.
Proof.
  assert (H1 : 0 <= 6 <= INT_MAX) by (unfold INT_MAX; lia).
  assert (H2 : INT_MIN <= 2 <= 6) by (unfold INT_MIN; lia).
  assert (H3 : 6 - 2 <= INT_MAX) by (unfold INT_MAX; lia).
  assert (H4 : strlen ["h"; "i"]%byte <= INT_MAX) by (vm_compute; discriminate).
  repeat (split; [assumption|]).
  exact (proj1 (prepare_text_footprint (fun _ => "x"%byte) 2 6
                  ["h"; "i"]%byte H1 H2 H3 H4)).
Defined.

Lemma cstr_bytes_terminated (l r : list byte) :
  Forall (fun b => b <> NUL) l -> cstr_bytes (l ++ NUL :: r) = l.
Proof.
  induction 1 as [|b l Hb _ IH]; cbn; [reflexivity|].
  destruct (Byte.eqb b NUL) eqn:E.
  - apply Byte.byte_dec_bl in E. contradiction.
  - now rewrite IH.
Qed.

Lemma Forall_read_bytes (Q : byte -> Prop) (m : mem) (n : Z) :
  (forall j, 0 <= j < n -> Q (m j)) -> Forall Q (read_bytes m n).
Proof.
  intros H. unfold read_bytes. apply Forall_forall. intros b Hb.
  apply in_map_iff in Hb. destruct Hb as (k & <- & Hk).
  apply in_seq in Hk. apply H. lia.
Qed.

(** X15. The line is a string of length [w], ready to be drawn.  Read as a
    C string, the destination after [sctui_prepare_text] has exactly [w]
    characters and no newline among them; passed to [sctui_text] (with
    [w <= BUFSIZ]), it adds exactly these [w] bytes between the two cursor
    moves and brings the recorded cursor position back. *)
Theorem prepared_line_is_drawn_whole
  (P : platform) (p : ptr) (x y : Z) (st : world)
  (buf : mem) (offset w : Z) (text : list byte) :
  platform_ok P ->
  buf_ok P (heap st p) ->
  0 <= w <= BUFSIZ P ->
  INT_MIN <= offset <= w ->
  w - offset <= INT_MAX ->
  strlen text <= INT_MAX ->
  let dst := sctui_prepare_text buf offset w text in
  let line := read_bytes dst (w + 1) in
  strlen line = w /\
  cstr_bytes line = read_bytes dst w /\
  Forall (fun b => b <> NL) (cstr_bytes line) /\
  exists st',
    sctui_text P p x y line st = Ret tt st' /\
    cursor_pos st' p = cursor_pos st p /\
    written st' ++ held st' p
    = written st ++ held st p
      ++ move_bytes (cursor_pos st p) x y ++ read_bytes dst w
      ++ move_bytes (x, y) (cursor_x (heap st p)) (cursor_y (heap st p)).
Proof.
  intros HP Hok Hw Hoff Hdiff Htl dst line.
  assert (Hw' : 0 <= w <= INT_MAX) by (unfold platform_ok in HP; lia).
  destruct (prepare_text_cells buf offset w text Hw' Hoff Hdiff Htl)
    as (Hcells & Hterm).
  fold dst in Hcells, Hterm.
  assert (Hline : cstr_bytes line = read_bytes dst w).
  { subst line. rewrite read_bytes_succ by lia. rewrite Hterm.
    apply cstr_bytes_terminated.
    apply Forall_read_bytes. intros j Hj. rewrite (Hcells j Hj).
    apply line_spec_clean. }
  assert (Hlen : strlen line = w).
  { unfold strlen. rewrite Hline, read_bytes_length. lia. }
  split; [exact Hlen|]. split; [exact Hline|].
  split.
  { rewrite Hline. apply Forall_read_bytes. intros j Hj. rewrite (Hcells j Hj).
    apply line_spec_clean. }
  destruct (sctui_text_stream P HP p x y line st Hok) as (st' & Hrun & _ & Hc & Hp).
  { lia. }
  exists st'. split; [exact Hrun|]. split; [exact Hc|].
  unfold pending in Hp. rewrite <- app_assoc in Hp. now rewrite Hp, Hline.
Qed.

Lemma prepared_line_is_drawn_whole_witness :
  platform_ok linux_glibc /\
  buf_ok linux_glibc (heap session1 1) /\
  0 <= 6 <= BUFSIZ linux_glibc /\
  INT_MIN <= 2 <= 6 /\
  6 - 2 <= INT_MAX /\
  strlen ["h"; "i"; NL; "y"; "o"]%byte <= INT_MAX /\
  strlen (read_bytes
            (sctui_prepare_text (fun _ => "x"%byte) 2 6
               ["h"; "i"; NL; "y"; "o"]%byte) (6 + 1)) = 6.
Proof.
  assert (H1 : 0 <= 6 <= BUFSIZ linux_glibc) by (cbn; lia).
  assert (H2 : INT_MIN <= 2 <= 6) by (unfold INT_MIN; lia).
  assert (H3 : 6 - 2 <= INT_MAX) by (unfold INT_MAX; lia).
  assert (H4 : strlen ["h"; "i"; NL; "y"; "o"]%byte <= INT_MAX)
    by (vm_compute; discriminate).
  split; [exact platform_ok_linux|]. split; [exact buf_ok_session1|].
  repeat (split; [assumption|]).
  exact (proj1 (prepared_line_is_drawn_whole linux_glibc 1 3 2 session1
                  (fun _ => "x"%byte) 2 6 ["h"; "i"; NL; "y"; "o"]%byte
                  platform_ok_linux buf_ok_session1 H1 H2 H3 H4)).
Defined.

(** ** Key presses in a row *)

(** X16. Calls of [sctui_grab_key] in a row always return; each takes one
    answer of the terminal, and the key buffer ends with the last byte
    that arrived in its first byte, or with what was there when none
    arrived.  No other byte of the key buffer is ever stored to, and
    neither the output, the sessions nor the terminal attributes
    change. *)
Theorem grab_keys_last_byte (n : nat) (keybuf : mem) (st : world) :
  exists keybuf' st',
    grab_keys n keybuf st = Ret keybuf' st' /\
    keybuf' 0 = last_byte (firstn n (input st)) (keybuf 0) /\
    (forall j, j <> 0 -> keybuf' j = keybuf j) /\
    input st' = skipn n (input st) /\
    out st' = out st /\ heap st' = heap st /\ tty st' = tty st.
Proof.
  revert keybuf st. induction n as [|n IH]; intros keybuf st.
  - exists keybuf, st. cbn. now repeat split.
  - cbn [grab_keys]. unfold bind, sctui_grab_key, read_stdin_1.
    destruct (input st) as [|[b|] rest] eqn:E.
    + destruct (IH keybuf st) as (kb & st' & Hrun & H0 & Hj & Hin & Ho & Hh & Ht).
      exists kb, st'. rewrite E in H0, Hin.
      rewrite firstn_nil in H0. rewrite skipn_nil in Hin.
      cbn [firstn skipn]. now repeat split.
    + destruct (IH (upd keybuf 0 b) (set_input st rest))
        as (kb & st' & Hrun & H0 & Hj & Hin & Ho & Hh & Ht).
      exists kb, st'. cbn [input set_input] in H0, Hin.
      rewrite upd_same in H0. cbn [firstn skipn last_byte fold_left].
      split; [exact Hrun|]. split; [exact H0|].
      split; [|now repeat split].
      intros j Hne. rewrite Hj by exact Hne. now apply upd_other.
    + destruct (IH keybuf (set_input st rest))
        as (kb & st' & Hrun & H0 & Hj & Hin & Ho & Hh & Ht).
      exists kb, st'. cbn [input set_input] in H0, Hin.
      cbn [firstn skipn last_byte fold_left]. now repeat split.
Qed.


(** ** Where an append stores *)

(** X17. An append stores to the indices from where it starts (the used
    length, or 0 after a commit) up to and including the index of its
    terminator, and nowhere else.  It therefore stays inside the
    [BUFSIZ] bytes of the buffer exactly when the text ends before the
    last byte: start plus length below [BUFSIZ].  When the text ends at
    the last byte the terminator is stored at index [BUFSIZ]. *)
Theorem append_footprint
  (P : platform) (p : ptr) (text : list byte) (st : world) :
  platform_ok P ->
  buf_ok P (heap st p) ->
  strlen text <= BUFSIZ P ->
  let at_ := append_at (heap st p) text in
  exists st',
    _sctui_buf_append P p text st = Ret tt st' /\
    0 <= at_ /\ at_ + strlen text <= BUFSIZ P /\
    (forall j, j < at_ \/ at_ + strlen text < j ->
       buf (heap st' p) j = buf (heap st p) j) /\
    (at_ + strlen text < BUFSIZ P ->
     forall j, j < 0 \/ BUFSIZ P <= j ->
       buf (heap st' p) j = buf (heap st p) j) /\
    buf (heap st' p) (at_ + strlen text) = NUL.
Proof.
  intros HP [Hsize Hused] Hlen at_.
  pose proof (strlen_nonneg text) as Hnn.
  destruct (buf_append_run P p text st Hlen) as (st' & Hrun & _ & Hheap & _).
  unfold platform_ok, INT_MAX in HP.
  rewrite size_add_small in Hheap by (unfold SIZE_MAX; lia).
  fold (append_at (heap st p) text) in Hheap. fold at_ in Hheap.
  assert (Hat : 0 <= at_ /\ at_ + strlen text <= BUFSIZ P).
  { subst at_. unfold append_at. rewrite Z.gtb_ltb.
    destruct (Z.ltb_spec (buf_size (heap st p))
                (buf_used (heap st p) + strlen text)); lia. }
  assert (Hout : forall j, j < at_ \/ at_ + strlen text < j ->
            buf (heap st' p) j = buf (heap st p) j).
  { intros j Hj. rewrite Hheap. cbn [buf set_buf set_buf_used].
    unfold stpcpy. apply write_bytes_outside.
    rewrite length_app. cbn [length]. unfold strlen in Hj. lia. }
  exists st'. split; [exact Hrun|]. split; [apply Hat|]. split; [apply Hat|].
  split; [exact Hout|]. split.
  - intros Hin j Hj. apply Hout. lia.
  - rewrite Hheap. cbn [buf set_buf set_buf_used]. apply stpcpy_terminator.
Qed.

Lemma append_footprint_witness :
  platform_ok linux_glibc /\
  buf_ok linux_glibc (heap session1 1) /\
  strlen ESC_HIDE_CURSOR <= BUFSIZ linux_glibc /\
  exists st',
    _sctui_buf_append linux_glibc 1 ESC_HIDE_CURSOR session1 = Ret tt st' /\
    forall j, j < 0 \/ BUFSIZ linux_glibc <= j ->
      buf (heap st' 1) j = buf (heap session1 1) j.
Proof.
  assert (Hlen : strlen ESC_HIDE_CURSOR <= BUFSIZ linux_glibc)
    by (vm_compute; discriminate).
  split; [exact platform_ok_linux|]. split; [exact buf_ok_session1|].
  split; [exact Hlen|].
  destruct (append_footprint linux_glibc 1 ESC_HIDE_CURSOR session1
              platform_ok_linux buf_ok_session1 Hlen)
    as (st' & Hrun & _ & _ & _ & Hin & _).
  exists st'. split; [exact Hrun|]. apply Hin. vm_compute. reflexivity.
Defined.

(** ** The cursor sequence and its local buffer *)

Lemma dec_digits_nonempty (fuel : nat) (n : Z) (acc : list byte) :
  (length acc < length (dec_digits (S fuel) n acc))%nat.
Proof.
  revert n acc. induction fuel as [|fuel IH]; intros n acc.
  - cbn. destruct (n / 10 =? 0); cbn; lia.
  - cbn [dec_digits]. destruct (n / 10 =? 0); [cbn; lia|].
    specialize (IH (n / 10) (digit (n mod 10) :: acc)).
    cbn [length] in IH. cbn [dec_digits] in IH. lia.
Qed.

(** X18. The cursor sequence always fits the local array [char b[32]] of
    [sctui_cursor]: for all [int] arguments it is between 6 and 24 bytes
    long, none of them NUL, so with its terminator it needs at most 25
    bytes.  Its two numbers are the arguments read as unsigned: the
    coordinate itself when it is not negative, the coordinate plus 2^32
    when it is. *)
Theorem cursor_sequence_fits (y x : Z) :
  6 <= len (sprintf_cursor y x) <= 24 /\
  strlen (sprintf_cursor y x) + 1 <= 32 /\
  cstr_bytes (sprintf_cursor y x) = sprintf_cursor y x /\
  sprintf_cursor y x
  = ESC :: "["%byte :: fmt_u y ++ ";"%byte :: fmt_u x ++ ["H"%byte] /\
  (0 <= x <= INT_MAX -> dec_value (fmt_u x) = x) /\
  (INT_MIN <= x < 0 -> dec_value (fmt_u x) = x + 4294967296) /\
  (0 <= y <= INT_MAX -> dec_value (fmt_u y) = y) /\
  (INT_MIN <= y < 0 -> dec_value (fmt_u y) = y + 4294967296).
Proof.
  assert (Hneg : forall v, INT_MIN <= v < 0 ->
                   dec_value (fmt_u v) = v + 4294967296).
  { intros v Hv. destruct (fmt_u_shape v) as [-> _].
    unfold to_uint, INT_MIN in *.
    symmetry. apply (Z.mod_unique v 4294967296 (-1)); lia. }
  pose proof (sprintf_cursor_strlen y x) as Hs.
  assert (Hl : strlen (sprintf_cursor y x) = len (sprintf_cursor y x)).
  { unfold strlen, len. now rewrite sprintf_cursor_cstr. }
  split.
  { split; [|lia]. unfold len, sprintf_cursor.
    pose proof (dec_digits_nonempty 9 (to_uint y) []) as Hy.
    pose proof (dec_digits_nonempty 9 (to_uint x) []) as Hx.
    fold (fmt_u y) in Hy. fold (fmt_u x) in Hx. cbn [length] in Hy, Hx.
    cbn [length]. rewrite length_app. cbn [length]. rewrite length_app.
    cbn [length]. lia. }
  split; [lia|]. split; [apply sprintf_cursor_cstr|].
  split; [reflexivity|].
  split; [apply fmt_u_nonneg|]. split; [apply Hneg|].
  split; [apply fmt_u_nonneg|apply Hneg].
Qed.

Lemma cursor_sequence_fits_witness :
  INT_MIN <= -1 < 0 /\ dec_value (fmt_u (-1)) = -1 + 4294967296.
Proof.
  assert (H : INT_MIN <= -1 < 0) by (unfold INT_MIN; lia).
  split; [exact H|].
  destruct (cursor_sequence_fits 5 (-1)) as (_ & _ & _ & _ & _ & Hneg & _).
  exact (Hneg H).
Defined.
